(** * CSVUploader: the upload session of src/containers/CSVUploader/index.jsx

    The React component is embedded as
    - a record [Session] for [this.state], updated by [setState] with an
      object literal (a list of key/value pairs, merged into the record);
    - a small monad-like syntax [Task] for the bodies of the event handlers,
      whose [await]s are the points where a handler is suspended;
    - pure functions for the locals computed by [render];
    - a [World] that holds the session together with the suspended handlers,
      and a [step] function that fires the events the rendered widgets and
      the two asynchronous collaborators (parseCSV, onUpload) can deliver. *)

From Stdlib Require Import String List Bool Arith ZArith NArith QArith Qround Lia.
From Stdlib Require Import Permutation.
Import ListNotations.

Open Scope string_scope.
Open Scope list_scope.
Open Scope nat_scope.

Set Warnings "-register-all".

(** ** JavaScript values *)

(** A value that may be [undefined] or [null]. *)
Inductive js (A : Type) : Type :=
| undefined
| null
| val (a : A).
Arguments undefined {A}.
Arguments null {A}.
Arguments val {A} a.

(** JavaScript numbers, as far as the component produces them: the results
    of [Math.round], of [.length] and of subtracting two lengths. *)
Inductive number : Type :=
| Int (z : Z)
| NaN
| PosInfinity
| NegInfinity.

(** ToBoolean. *)
Class Truthy (A : Type) := truthy : A -> bool.

#[export] Instance Truthy_bool : Truthy bool := fun b => b.
#[export] Instance Truthy_string : Truthy string :=
  fun s => match s with EmptyString => false | String _ _ => true end.
#[export] Instance Truthy_number : Truthy number :=
  fun n => match n with
           | Int z => negb (z =? 0)%Z
           | NaN => false
           | PosInfinity | NegInfinity => true
           end.
#[export] Instance Truthy_js {A} `{Truthy A} : Truthy (js A) :=
  fun v => match v with val a => truthy a | _ => false end.

(** [a - b] on numbers. *)
Definition minus (a b : number) : number :=
  match a, b with
  | Int x, Int y => Int (x - y)
  | NaN, _ | _, NaN => NaN
  | PosInfinity, PosInfinity | NegInfinity, NegInfinity => NaN
  | PosInfinity, _ | _, NegInfinity => PosInfinity
  | NegInfinity, _ | _, PosInfinity => NegInfinity
  end.

(** [a * 100] on numbers. *)
Definition times100 (a : number) : number :=
  match a with
  | Int x => Int (x * 100)
  | other => other
  end.

(** [Math.round(x)]: the nearest integer, halves rounded up. *)
Definition Math_round (x : Q) : Z := Qfloor (x + (1 # 2)).

(** [Math.round(a / b)] for two non-negative integers: [0 / 0] is NaN and
    [a / 0] is Infinity for positive [a]. The quotient is taken exactly.
    The code rounds the double-precision quotient, which gives the same
    integer whenever [a <= b] or [b = 0]; for some [a > b] the two differ
    in the last place, so the value is only relied on within
    [a <= b] or [b = 0]. *)
Definition Math_round_quotient (a b : N) : number :=
  if (b =? 0)%N then (if (a =? 0)%N then NaN else PosInfinity)
  else Int (Math_round (inject_Z (Z.of_N a) / inject_Z (Z.of_N b))).

(** [array.indexOf(x)] on an array of strings. *)
Fixpoint indexOf (l : list string) (x : string) : Z :=
  match l with
  | [] => -1
  | y :: l' =>
      if String.eqb y x then 0%Z
      else let i := indexOf l' x in if (i =? -1)%Z then (-1)%Z else (i + 1)%Z
  end.

(** The two lodash functions the component calls. A nullish collection is
    treated as empty, and the string shorthand ["required"] selects the
    elements whose property is truthy. *)
Module lodash.
Definition collection {A} (c : js (list A)) : list A :=
  match c with val l => l | _ => [] end.

Definition partition {A} (c : js (list A)) (p : A -> bool) : list A * list A :=
  (filter p (collection c), filter (fun x => negb (p x)) (collection c)).

Definition every {A} (l : list A) (p : A -> bool) : bool := forallb p l.
End lodash.

(** ** Props and the data handed over by the collaborators *)

(** One entry of [columnConfig]. [validate] and [transformAndValidate] are
    read by parseCSV only; the component passes the whole entry on. *)
Record ColumnSpec := {
  inputName : string;
  aliases : js (list string);
  apiName : string;
  required : js bool;
  description : string
}.

(** A row of the cleaned dataset: apiName / value pairs. The component only
    stores the rows and hands them to [onUpload]. *)
Definition OutputRow : Type := list (string * string).

(** Modelled from the spec: the record parseCSV returns as [validationStats]
    (parseCSV.js is not part of the sources); the component stores it and
    passes it to the ValidationStats widget. *)
Record ValidationStats := {
  totalRows : nat;
  validRows : nat;
  invalidRows : nat;
  duplicateRows : nat
}.

(** A file picked by the user. *)
Record File := {
  name : string;
  content : string
}.

Record Props := {
  initialError : js string;
  maxRows : js nat;
  columnConfig : js (list ColumnSpec);
  dedupeOn : js string
}.

(** The second argument of [parseCSV]. *)
Module Options.
Record t := {
  maxRows : js nat;
  columnConfig : js (list ColumnSpec);
  dedupeOn : js string
}.
End Options.

(** What [parseCSV] resolves to. *)
Module ParseResult.
Record t := {
  data : list OutputRow;
  fields : list string;
  validationStats : ValidationStats;
  fileName : string;
  errors : list string
}.
End ParseResult.

(** A thrown value: an object with a [message], or [null] / [undefined]. *)
Record ErrorObject := { message : js string }.
Definition Thrown : Type := js ErrorObject.

(** How an awaited promise settles. *)
Inductive Settled (A : Type) : Type :=
| Fulfilled (a : A)
| Rejected (e : Thrown).
Arguments Fulfilled {A} a.
Arguments Rejected {A} e.

Record ProgressEvent := {
  loaded : N;
  total : N
}.

(** ** this.state *)

Inductive Phase := idle | parsing | parsed | uploading.

Definition Phase_eqb (a b : Phase) : bool :=
  match a, b with
  | idle, idle | parsing, parsing | parsed, parsed | uploading, uploading => true
  | _, _ => false
  end.

(** [this.state.errors] starts as the [initialError] prop (a string) and is
    afterwards set to arrays of messages. *)
Inductive ErrorsValue :=
| Message (s : string)
| Messages (l : list string).

#[export] Instance Truthy_ErrorsValue : Truthy ErrorsValue :=
  fun e => match e with Message s => truthy s | Messages _ => true end.

Record Session := {
  state : Phase;
  errors : js ErrorsValue;
  uploadError : js string;
  parsedData : js (list OutputRow);
  validationStats : js ValidationStats;
  fields : js (list string);
  fileName : js string;
  uploadProgress : js number
}.

(** One [key: value] entry of the object literal passed to [setState]. *)
Inductive KeyValue :=
| Kstate (v : Phase)
| Kerrors (v : js ErrorsValue)
| KuploadError (v : js string)
| KparsedData (v : js (list OutputRow))
| KvalidationStats (v : js ValidationStats)
| Kfields (v : js (list string))
| KfileName (v : js string)
| KuploadProgress (v : js number).

Definition assign (s : Session) (kv : KeyValue) : Session :=
  match kv with
  | Kstate v =>
      {| state := v; errors := errors s; uploadError := uploadError s;
         parsedData := parsedData s; validationStats := validationStats s;
         fields := fields s; fileName := fileName s;
         uploadProgress := uploadProgress s |}
  | Kerrors v =>
      {| state := state s; errors := v; uploadError := uploadError s;
         parsedData := parsedData s; validationStats := validationStats s;
         fields := fields s; fileName := fileName s;
         uploadProgress := uploadProgress s |}
  | KuploadError v =>
      {| state := state s; errors := errors s; uploadError := v;
         parsedData := parsedData s; validationStats := validationStats s;
         fields := fields s; fileName := fileName s;
         uploadProgress := uploadProgress s |}
  | KparsedData v =>
      {| state := state s; errors := errors s; uploadError := uploadError s;
         parsedData := v; validationStats := validationStats s;
         fields := fields s; fileName := fileName s;
         uploadProgress := uploadProgress s |}
  | KvalidationStats v =>
      {| state := state s; errors := errors s; uploadError := uploadError s;
         parsedData := parsedData s; validationStats := v;
         fields := fields s; fileName := fileName s;
         uploadProgress := uploadProgress s |}
  | Kfields v =>
      {| state := state s; errors := errors s; uploadError := uploadError s;
         parsedData := parsedData s; validationStats := validationStats s;
         fields := v; fileName := fileName s;
         uploadProgress := uploadProgress s |}
  | KfileName v =>
      {| state := state s; errors := errors s; uploadError := uploadError s;
         parsedData := parsedData s; validationStats := validationStats s;
         fields := fields s; fileName := v;
         uploadProgress := uploadProgress s |}
  | KuploadProgress v =>
      {| state := state s; errors := errors s; uploadError := uploadError s;
         parsedData := parsedData s; validationStats := validationStats s;
         fields := fields s; fileName := fileName s;
         uploadProgress := v |}
  end.

(** [this.setState(obj)]: the entries of [obj] are merged into the state;
    the keys [obj] does not mention keep their value. *)
Definition setState (obj : list KeyValue) (s : Session) : Session :=
  fold_left assign obj s.

(** The state the constructor builds. [fileName] and [uploadProgress] are
    not initialised there. *)
Definition constructor (props : Props) : Session :=
  {| state := idle;
     errors := match initialError props with
               | undefined => undefined
               | null => null
               | val m => val (Message m)
               end;
     uploadError := null;
     parsedData := null;
     validationStats := null;
     fields := null;
     fileName := undefined;
     uploadProgress := undefined |}.

(** ** Handler bodies *)

(** The request object built by [onSave]. [T] is the type of handler
    bodies, so that the progress callback is one of them. *)
Module Request.
Record t (T : Type) := {
  data : js (list OutputRow);
  fileName : js string;
  onUploadProgress : ProgressEvent -> T
}.
Arguments data {T} _.
Arguments fileName {T} _.
Arguments onUploadProgress {T} _ _.
End Request.

(** The body of a handler, in continuation-passing style. The two [Await]
    nodes are the places where an [async] handler is suspended until the
    collaborator's promise settles. *)
Inductive Task : Type :=
| Return
| Throw (e : Thrown)
| GetState (k : Session -> Task)
| SetState (obj : list KeyValue) (k : Task)
| ConsoleError (e : Thrown) (k : Task)
| AwaitParseCSV (file : js File) (opts : Options.t)
    (k : Settled ParseResult.t -> Task)
| AwaitOnUpload (req : Request.t Task) (k : Settled unit -> Task).

(** [await promise]: a rejection is thrown at the await. *)
Definition await {A} (k : A -> Task) (r : Settled A) : Task :=
  match r with
  | Fulfilled a => k a
  | Rejected e => Throw e
  end.

(** [try { body } catch (e) { handler }] *)
Fixpoint try_catch (body : Task) (handler : Thrown -> Task) : Task :=
  match body with
  | Return => Return
  | Throw e => handler e
  | GetState k => GetState (fun s => try_catch (k s) handler)
  | SetState obj k => SetState obj (try_catch k handler)
  | ConsoleError e k => ConsoleError e (try_catch k handler)
  | AwaitParseCSV file opts k =>
      AwaitParseCSV file opts (fun r => try_catch (k r) handler)
  | AwaitOnUpload req k =>
      AwaitOnUpload req (fun r => try_catch (k r) handler)
  end.

(** [e.message]; reading a property of [null] or [undefined] throws a
    TypeError. *)
Definition TypeError (m : string) : Thrown := val {| message := val m |}.

Definition get_message (e : Thrown) (k : js string -> Task) : Task :=
  match e with
  | val o => k (message o)
  | _ => Throw (TypeError "Cannot read properties of null or undefined")
  end.

(** [acceptedFiles[0]] *)
Definition first {A} (l : list A) : js A :=
  match l with
  | [] => undefined
  | x :: _ => val x
  end.

Section Handlers.
Variable props : Props.

(** The part of [onPickCSV] after [await parseCSV(...)]. *)
Definition onPickCSV_parsed (r : ParseResult.t) : Task :=
  if negb (length (ParseResult.errors r) =? 0) then
    SetState [Kstate parsed;
              KvalidationStats (val (ParseResult.validationStats r));
              Kerrors (val (Messages (ParseResult.errors r)));
              Kfields (val (ParseResult.fields r))]
      Return
  else
    SetState [Kstate parsed;
              KvalidationStats (val (ParseResult.validationStats r));
              Kfields (val (ParseResult.fields r));
              KfileName (val (ParseResult.fileName r));
              KparsedData (val (ParseResult.data r));
              Kerrors (if 0 <? length (ParseResult.data r)
                       then val (Messages [])
                       else val (Messages ["Please upload at least one valid row."]))]
      Return.

Definition onPickCSV (acceptedFiles rejectedFiles : list File) : Task :=
  if (0 <? length rejectedFiles)
     || (1 <? length acceptedFiles + length rejectedFiles)
  then
    SetState [Kerrors (val (Messages ["Please upload a single CSV file"]))]
      Return
  else
    SetState [Kerrors null;
              KparsedData null;
              KvalidationStats null;
              Kfields null;
              Kstate parsing]
      (AwaitParseCSV (first acceptedFiles)
         {| Options.maxRows := maxRows props;
            Options.columnConfig := columnConfig props;
            Options.dedupeOn := dedupeOn props |}
         (await onPickCSV_parsed)).

Definition onDelete : Task :=
  SetState [Kerrors null;
            KuploadError null;
            KparsedData null;
            KvalidationStats null;
            Kfields null;
            Kstate idle]
    Return.

(** The progress callback [onSave] puts into the request. *)
Definition onUploadProgress (progressEvent : ProgressEvent) : Task :=
  GetState (fun this_state =>
    if Phase_eqb (state this_state) uploading then
      let percentCompleted :=
        Math_round_quotient (loaded progressEvent) (total progressEvent) in
      SetState [KuploadProgress (val percentCompleted)] Return
    else Return).

(** The [catch (e)] block of [onSave]. *)
Definition onSave_catch (e : Thrown) : Task :=
  ConsoleError e
    (get_message e (fun m =>
       SetState [Kstate parsed; KuploadError m] Return)).

(** The part of the [try] block of [onSave] after
    [await this.props.onUpload(...)]. *)
Definition onSave_uploaded : Task :=
  SetState [Kstate idle;
            Kerrors null;
            KuploadError null;
            KparsedData null;
            KvalidationStats null;
            Kfields null]
    Return.

Definition onSave : Task :=
  SetState [Kstate uploading;
            KuploadError null;
            KuploadProgress (val (Int 0))]
    (try_catch
       (GetState (fun this_state =>
          AwaitOnUpload
            {| Request.data := parsedData this_state;
               Request.fileName := fileName this_state;
               Request.onUploadProgress := onUploadProgress |}
            (await (fun _ : unit => onSave_uploaded))))
       onSave_catch).
End Handlers.

(** ** Running a handler until it finishes or is suspended *)

Inductive Outcome : Type :=
| Completed
| Failed (e : Thrown)
| AwaitingParse (file : js File) (opts : Options.t)
    (k : Settled ParseResult.t -> Task)
| AwaitingUpload (req : Request.t Task) (k : Settled unit -> Task).

(** [setState] is taken to apply at once, so that a later read of
    [this.state] in the same handler sees it. An error reaching [Failed]
    has left the handler: for an [async] handler it rejects the promise the
    handler returned. [console.error] does not touch the session. *)
Fixpoint run (t : Task) (s : Session) : Session * Outcome :=
  match t with
  | Return => (s, Completed)
  | Throw e => (s, Failed e)
  | GetState k => run (k s) s
  | SetState obj k => run k (setState obj s)
  | ConsoleError _ k => run k s
  | AwaitParseCSV file opts k => (s, AwaitingParse file opts k)
  | AwaitOnUpload req k => (s, AwaitingUpload req k)
  end.

(** ** render *)

(** What [render] puts on the page, as far as the session decides it. *)
Record View := {
  (* one red box per entry *)
  errorMessages : list string;
  (* "...and {rest} more rows with errors", when [rest] is truthy *)
  moreRowsWithErrors : option number;
  (* per column of [columnConfig]: name and [present] flag *)
  requiredColumnNames : list (string * js bool);
  optionalColumnNames : list (string * js bool);
  (* <FilePicker onPick={this.onPickCSV} /> *)
  filePicker : bool;
  (* <ValidationStats stats canDelete onDelete />: stats and canDelete *)
  validationStatsPanel : option (js ValidationStats * bool);
  (* the Upload button, with its [disabled] flag *)
  uploadButton : option bool;
  (* the number printed after "Uploading: ", before [toFixed(1)] *)
  uploadingPercent : option number
}.

Section Render.
Variable props : Props.
Variable this_state : Session.

Definition columnIsPresent (name : string) : js bool :=
  match fields this_state with
  | val fs => val (negb (indexOf fs name =? -1)%Z)
  | _ => null
  end.

Definition requiredColumns : list ColumnSpec :=
  fst (lodash.partition (columnConfig props) (fun c => truthy (required c))).

Definition optionalColumns : list ColumnSpec :=
  snd (lodash.partition (columnConfig props) (fun c => truthy (required c))).

(** [value.length] of the errors value. *)
Definition length_of (e : ErrorsValue) : nat :=
  match e with
  | Message s => String.length s
  | Messages l => List.length l
  end.

(** [value.slice(0, 9)] of the errors value. *)
Definition slice_0_9 (e : ErrorsValue) : ErrorsValue :=
  match e with
  | Message s => Message (substring 0 9 s)
  | Messages l => Messages (firstn 9 l)
  end.

(** [value && value.length] as a number, the way [-] and the
    truthiness test read it: [undefined] is NaN, [null] and the empty
    string are 0. *)
Definition and_length (e : js ErrorsValue) : number :=
  match e with
  | undefined => NaN
  | null => Int 0
  | val v => if truthy v then Int (Z.of_nat (length_of v)) else Int 0
  end.

Definition canSaveAndContinue : bool :=
  negb (truthy (and_length (errors this_state)))
  && negb (Phase_eqb (state this_state) uploading)
  && lodash.every requiredColumns
       (fun c => truthy (columnIsPresent (inputName c))).

(** [this.state.errors && this.state.errors.slice(0, 9)] *)
Definition validationErrors : js ErrorsValue :=
  if truthy (errors this_state)
  then match errors this_state with
       | val v => val (slice_0_9 v)
       | other => other
       end
  else errors this_state.

(** The [errors] local of [render]. *)
Definition render_errors : js ErrorsValue :=
  match uploadError this_state with
  | val m => if truthy m then val (Messages [m]) else validationErrors
  | _ => validationErrors
  end.

Definition allErrorLength : number := and_length (errors this_state).
Definition visibleErrors : number := and_length validationErrors.
Definition rest : number := minus allErrorLength visibleErrors.

(** [errors && !!errors.length ? errors.map(...) : null]; a non-empty
    string has no [map], which is a TypeError ([None]). *)
Definition render_errorMessages : option (list string) :=
  match render_errors with
  | val (Messages l) => Some l
  | val (Message s) => if truthy s then None else Some []
  | _ => Some []
  end.

Definition present_flags (cs : list ColumnSpec) : list (string * js bool) :=
  map (fun c => (inputName c, columnIsPresent (inputName c))) cs.

Definition render : option View :=
  match render_errorMessages with
  | None => None
  | Some messages =>
      Some {|
        errorMessages := messages;
        moreRowsWithErrors := if truthy rest then Some rest else None;
        requiredColumnNames := present_flags requiredColumns;
        optionalColumnNames := present_flags optionalColumns;
        filePicker := Phase_eqb (state this_state) idle;
        validationStatsPanel :=
          if Phase_eqb (state this_state) parsed
             || Phase_eqb (state this_state) uploading
          then Some (validationStats this_state,
                     Phase_eqb (state this_state) parsed)
          else None;
        uploadButton :=
          if Phase_eqb (state this_state) uploading
             || Phase_eqb (state this_state) parsed
          then Some (negb canSaveAndContinue)
          else None;
        uploadingPercent :=
          if Phase_eqb (state this_state) uploading
             || Phase_eqb (state this_state) parsed
          then if Phase_eqb (state this_state) uploading
               then Some (match uploadProgress this_state with
                          | val n => times100 n
                          | null => Int 0
                          | undefined => NaN
                          end)
               else None
          else None
      |}
  end.

(** [onClick={() => canSaveAndContinue && this.onSave()}] *)
Definition onClick : Task :=
  if canSaveAndContinue then onSave else Return.
End Render.

(** ** The session together with its suspended handlers *)

(** A handler suspended at [await parseCSV(file, opts)]. *)
Record PendingParse := {
  parse_file : js File;
  parse_opts : Options.t;
  parse_resume : Settled ParseResult.t -> Task
}.

(** A handler suspended at [await this.props.onUpload(req)]. *)
Record PendingUpload := {
  upload_request : Request.t Task;
  upload_resume : Settled unit -> Task
}.

Record World := {
  session : Session;
  (* calls of parseCSV that have not settled yet *)
  parses : list PendingParse;
  (* calls of onUpload that have not settled yet *)
  uploads : list PendingUpload;
  (* progress callbacks the transport has been given, oldest first *)
  callbacks : list (ProgressEvent -> Task);
  (* errors that left a handler *)
  escaped : list Thrown
}.

Definition mount (props : Props) : World :=
  {| session := constructor props;
     parses := [];
     uploads := [];
     callbacks := [];
     escaped := [] |}.

(** Run a handler body on the world's session and file what it ends in. *)
Definition dispatch (t : Task) (w : World) : World :=
  match run t (session w) with
  | (s, Completed) =>
      {| session := s; parses := parses w; uploads := uploads w;
         callbacks := callbacks w; escaped := escaped w |}
  | (s, Failed e) =>
      {| session := s; parses := parses w; uploads := uploads w;
         callbacks := callbacks w; escaped := escaped w ++ [e] |}
  | (s, AwaitingParse file opts k) =>
      {| session := s;
         parses := parses w ++ [{| parse_file := file; parse_opts := opts;
                                   parse_resume := k |}];
         uploads := uploads w;
         callbacks := callbacks w; escaped := escaped w |}
  | (s, AwaitingUpload req k) =>
      {| session := s; parses := parses w;
         uploads := uploads w ++ [{| upload_request := req;
                                     upload_resume := k |}];
         callbacks := callbacks w ++ [Request.onUploadProgress req];
         escaped := escaped w |}
  end.

(** [l] without its [i]-th element. *)
Fixpoint remove_nth {A} (i : nat) (l : list A) : list A :=
  match i, l with
  | _, [] => []
  | O, _ :: l' => l'
  | S i', x :: l' => x :: remove_nth i' l'
  end.

(** What can happen to a mounted component. The first three come from the
    widgets [render] put on the page, the others from the collaborators. *)
Inductive Event :=
| Pick (acceptedFiles rejectedFiles : list File)
| Delete
| Click
| ParseSettles (i : nat) (r : Settled ParseResult.t)
| UploadSettles (i : nat) (r : Settled unit)
| Progress (i : nat) (progressEvent : ProgressEvent).

Section Step.
Variable props : Props.

(** [None]: the event cannot be delivered in this world. A widget
    delivers its event only while it is rendered (ValidationStats offers
    the delete action only with [canDelete]); a promise settles only
    while it is pending; a progress callback can be called by the
    transport at any time after it was handed over. *)
Definition step (w : World) (ev : Event) : option World :=
  match ev with
  | Pick acceptedFiles rejectedFiles =>
      match render props (session w) with
      | Some v =>
          if filePicker v
          then Some (dispatch (onPickCSV props acceptedFiles rejectedFiles) w)
          else None
      | None => None
      end
  | Delete =>
      match render props (session w) with
      | Some v =>
          match validationStatsPanel v with
          | Some (_, true) => Some (dispatch onDelete w)
          | _ => None
          end
      | None => None
      end
  | Click =>
      match render props (session w) with
      | Some v =>
          match uploadButton v with
          | Some _ => Some (dispatch (onClick props (session w)) w)
          | None => None
          end
      | None => None
      end
  | ParseSettles i r =>
      match nth_error (parses w) i with
      | Some p =>
          Some (dispatch (parse_resume p r)
                  {| session := session w;
                     parses := remove_nth i (parses w);
                     uploads := uploads w;
                     callbacks := callbacks w;
                     escaped := escaped w |})
      | None => None
      end
  | UploadSettles i r =>
      match nth_error (uploads w) i with
      | Some u =>
          Some (dispatch (upload_resume u r)
                  {| session := session w;
                     parses := parses w;
                     uploads := remove_nth i (uploads w);
                     callbacks := callbacks w;
                     escaped := escaped w |})
      | None => None
      end
  | Progress i progressEvent =>
      match nth_error (callbacks w) i with
      | Some callback => Some (dispatch (callback progressEvent) w)
      | None => None
      end
  end.

Fixpoint steps (w : World) (evs : list Event) : option World :=
  match evs with
  | [] => Some w
  | ev :: evs' =>
      match step w ev with
      | Some w' => steps w' evs'
      | None => None
      end
  end.

(** The worlds a mounted component can be in. *)
Definition reachable (w : World) : Prop :=
  exists evs, steps (mount props) evs = Some w.
End Step.

(** ** One upload, from the click to the settling of [onUpload] *)

(** The session after the progress events [evs] were delivered, in order,
    to the callback of the request [req]. *)
Definition deliver (req : Request.t Task) (evs : list ProgressEvent)
    (s : Session) : Session :=
  fold_left (fun s' ev => fst (run (Request.onUploadProgress req ev) s')) evs s.

(** [onSave] is called in session [s0] and is suspended in [onUpload]; the
    transport reports [evs]. The result is the request it was given, the
    session at that moment and what is left of the handler. *)
Definition onSave_uploading (s0 : Session) (evs : list ProgressEvent)
    : option (Request.t Task * Session * (Settled unit -> Task)) :=
  match run onSave s0 with
  | (s1, AwaitingUpload req k) => Some (req, deliver req evs s1, k)
  | _ => None
  end.

(** ... and then [onUpload] settles with [r]. *)
Definition onSave_settled (s0 : Session) (evs : list ProgressEvent)
    (r : Settled unit) : option (Session * Outcome) :=
  match onSave_uploading s0 evs with
  | Some (_, s2, k) => Some (run (k r) s2)
  | None => None
  end.

(** ** Invariant of the reachable worlds *)

(** The suspended handlers are the ones the component's own code left:
    the rest of [onPickCSV], the rest of [onSave], and [onSave]'s progress
    callback. *)
Definition resumes_onPickCSV (p : PendingParse) : Prop :=
  forall r s, run (parse_resume p r) s = run (await onPickCSV_parsed r) s.

Definition resumes_onSave (u : PendingUpload) : Prop :=
  forall r s,
    run (upload_resume u r) s
    = run (try_catch (await (fun _ : unit => onSave_uploaded) r) onSave_catch) s.

Definition calls_onUploadProgress (callback : ProgressEvent -> Task) : Prop :=
  forall ev s, run (callback ev) s = run (onUploadProgress ev) s.

Record invariant (w : World) : Prop := {
  inv_parses : Forall resumes_onPickCSV (parses w);
  inv_uploads : Forall resumes_onSave (uploads w);
  inv_callbacks : Forall calls_onUploadProgress (callbacks w);
  (* at most one parse is in flight, and only in the "parsing" state *)
  inv_one_parse :
    parses w = [] \/ (state (session w) = parsing /\ length (parses w) = 1);
  (* at most one upload is in flight, and only in the "uploading" state *)
  inv_one_upload :
    uploads w = [] \/ (state (session w) = uploading /\ length (uploads w) = 1);
  (* no upload error is left where a file can be picked or is being parsed *)
  inv_uploadError :
    state (session w) = idle \/ state (session w) = parsing ->
    uploadError (session w) = null;
  (* an upload is only running, or has only failed, on a dataset without
     blocking errors *)
  inv_errors :
    state (session w) = uploading \/ truthy (uploadError (session w)) = true ->
    truthy (and_length (errors (session w))) = false
}.

(** ** A late parse result, with the handlers called directly *)

Module Late.
Definition props : Props :=
  {| initialError := undefined; maxRows := undefined;
     columnConfig := undefined; dedupeOn := undefined |}.

Definition file_A : File := {| name := "a.csv"; content := "email" |}.
Definition file_B : File := {| name := "b.csv"; content := "email" |}.

Definition stats : ValidationStats :=
  {| totalRows := 1; validRows := 1; invalidRows := 0; duplicateRows := 0 |}.

Definition result_A : ParseResult.t :=
  {| ParseResult.data := [[("email", "a@example.com")]];
     ParseResult.fields := ["email"];
     ParseResult.validationStats := stats;
     ParseResult.fileName := "a.csv";
     ParseResult.errors := [] |}.

Definition result_B : ParseResult.t :=
  {| ParseResult.data := [[("email", "b@example.com")]];
     ParseResult.fields := ["email"];
     ParseResult.validationStats := stats;
     ParseResult.fileName := "b.csv";
     ParseResult.errors := [] |}.

(** [onPickCSV([file_A], [])], then [onPickCSV([file_B], [])] before the
    first parse has settled. *)
Definition two_parses : World :=
  dispatch (onPickCSV props [file_B] [])
    (dispatch (onPickCSV props [file_A] []) (mount props)).

(** The [i]-th suspended parse of [w] settles with [r]; no check of
    what is rendered. *)
Definition settle (i : nat) (r : ParseResult.t) (w : World) : World :=
  match nth_error (parses w) i with
  | Some p =>
      dispatch (parse_resume p (Fulfilled r))
        {| session := session w; parses := remove_nth i (parses w);
           uploads := uploads w; callbacks := callbacks w;
           escaped := escaped w |}
  | None => w
  end.

(** The later parse (of file_B) settles first ... *)
Definition B_settled : World := settle 1 result_B two_parses.
(** ... and the earlier one (of file_A) after it. *)
Definition A_settled_late : World := settle 0 result_A B_settled.
End Late.

(** ** Example sessions *)

Module RequiredColumn.
Definition email : ColumnSpec :=
  {| inputName := "email"; aliases := val ["Email"]; apiName := "email";
     required := val true; description := "Email address" |}.

Definition props : Props :=
  {| initialError := undefined; maxRows := undefined;
     columnConfig := val [email]; dedupeOn := undefined |}.

(** 40 valid rows were parsed, but the header had no email column. *)
Definition session : Session :=
  {| state := parsed;
     errors := val (Messages []);
     uploadError := null;
     parsedData := val [[("name", "Jane")]];
     validationStats :=
       val {| totalRows := 40; validRows := 40; invalidRows := 0;
              duplicateRows := 0 |};
     fields := val ["Full Name"];
     fileName := val "people.csv";
     uploadProgress := undefined |}.
End RequiredColumn.

(** [s'] differs from [s] at most in [uploadProgress]. *)
Definition same_but_uploadProgress (s s' : Session) : Prop :=
  state s' = state s
  /\ errors s' = errors s
  /\ uploadError s' = uploadError s
  /\ parsedData s' = parsedData s
  /\ validationStats s' = validationStats s
  /\ fields s' = fields s
  /\ fileName s' = fileName s.

Module Example.
(** A parse that kept one row and found no error. *)
Definition one_row : ParseResult.t :=
  {| ParseResult.data := [[("email", "a@example.com")]];
     ParseResult.fields := ["email"; "Full Name"];
     ParseResult.validationStats :=
       {| totalRows := 1; validRows := 1; invalidRows := 0;
          duplicateRows := 0 |};
     ParseResult.fileName := "people.csv";
     ParseResult.errors := [] |}.

(** A session showing twelve row errors. *)
Definition twelve_errors : Session :=
  {| state := parsed;
     errors := val (Messages ["e1"; "e2"; "e3"; "e4"; "e5"; "e6";
                              "e7"; "e8"; "e9"; "e10"; "e11"; "e12"]);
     uploadError := null;
     parsedData := null;
     validationStats :=
       val {| totalRows := 12; validRows := 0; invalidRows := 12;
              duplicateRows := 0 |};
     fields := val ["email"];
     fileName := undefined;
     uploadProgress := undefined |}.

Definition quarter : ProgressEvent := {| loaded := 1; total := 4 |}.
End Example.

Module History.
Definition props : Props := RequiredColumn.props.

Definition file : File := {| name := "people.csv"; content := "email,Full Name" |}.
Definition next_file : File := {| name := "more.csv"; content := "email,Full Name" |}.

Definition network_down : ErrorObject := {| message := val "Network Error" |}.

(** A file is picked and parsed, the upload fails, and the user deletes
    the parsed file. *)
Definition failed_upload : list Event :=
  [Pick [file] [];
   ParseSettles 0 (Fulfilled Example.one_row);
   Click;
   Progress 0 Example.quarter;
   UploadSettles 0 (Rejected (val network_down));
   Delete].

(** A file is picked and its parse is still running. *)
Definition picked : list Event := [Pick [file] []].

(** The world the events [evs] lead to from the mounted component (the
    mounted component itself if one of them cannot be delivered). *)
Definition after (evs : list Event) : World :=
  match steps props (mount props) evs with
  | Some w => w
  | None => mount props
  end.
End History.

(** ** The steps of a reachable world, one by one *)

(** The test at the head of [onPickCSV]. *)
Definition refuses (acceptedFiles rejectedFiles : list File) : bool :=
  (0 <? length rejectedFiles)
  || (1 <? length acceptedFiles + length rejectedFiles).

(** [w] with another session. *)
Definition with_session (w : World) (s : Session) : World :=
  {| session := s; parses := parses w; uploads := uploads w;
     callbacks := callbacks w; escaped := escaped w |}.

(** The suspended handler [onSave] leaves when called in session [s]. *)
Definition upload_of (s : Session) : PendingUpload :=
  {| upload_request :=
       {| Request.data := parsedData s;
          Request.fileName := fileName s;
          Request.onUploadProgress := onUploadProgress |};
     upload_resume :=
       fun r => try_catch (await (fun _ : unit => onSave_uploaded) r) onSave_catch |}.

(** The suspended handler [onPickCSV] leaves for the files [acceptedFiles]. *)
Definition parse_of (props : Props) (acceptedFiles : list File) : PendingParse :=
  {| parse_file := first acceptedFiles;
     parse_opts := {| Options.maxRows := maxRows props;
                      Options.columnConfig := columnConfig props;
                      Options.dedupeOn := dedupeOn props |};
     parse_resume := await onPickCSV_parsed |}.

(** Every way a world that satisfies [invariant] can move. *)
Inductive transition (props : Props) (w : World) : Event -> World -> Prop :=
| pick_refused acceptedFiles rejectedFiles :
    state (session w) = idle ->
    refuses acceptedFiles rejectedFiles = true ->
    transition props w (Pick acceptedFiles rejectedFiles)
      (with_session w
         (setState [Kerrors (val (Messages ["Please upload a single CSV file"]))]
            (session w)))
| pick_parsing acceptedFiles rejectedFiles :
    state (session w) = idle ->
    refuses acceptedFiles rejectedFiles = false ->
    transition props w (Pick acceptedFiles rejectedFiles)
      {| session := setState [Kerrors null; KparsedData null;
                              KvalidationStats null; Kfields null;
                              Kstate parsing] (session w);
         parses := [parse_of props acceptedFiles];
         uploads := [];
         callbacks := callbacks w;
         escaped := escaped w |}
| delete_parsed :
    state (session w) = parsed ->
    transition props w Delete
      {| session := fst (run onDelete (session w));
         parses := [];
         uploads := [];
         callbacks := callbacks w;
         escaped := escaped w |}
| click_disabled :
    state (session w) = parsed \/ state (session w) = uploading ->
    canSaveAndContinue props (session w) = false ->
    transition props w Click w
| click_upload :
    state (session w) = parsed ->
    canSaveAndContinue props (session w) = true ->
    transition props w Click
      {| session := setState [Kstate uploading; KuploadError null;
                              KuploadProgress (val (Int 0))] (session w);
         parses := [];
         uploads := [upload_of (session w)];
         callbacks := callbacks w ++ [onUploadProgress];
         escaped := escaped w |}
| parse_fulfilled r :
    state (session w) = parsing ->
    length (parses w) = 1 ->
    transition props w (ParseSettles 0 (Fulfilled r))
      {| session := fst (run (onPickCSV_parsed r) (session w));
         parses := [];
         uploads := [];
         callbacks := callbacks w;
         escaped := escaped w |}
| parse_rejected e :
    state (session w) = parsing ->
    length (parses w) = 1 ->
    transition props w (ParseSettles 0 (Rejected e))
      {| session := session w;
         parses := [];
         uploads := [];
         callbacks := callbacks w;
         escaped := escaped w ++ [e] |}
| upload_fulfilled :
    state (session w) = uploading ->
    length (uploads w) = 1 ->
    transition props w (UploadSettles 0 (Fulfilled tt))
      {| session := fst (run onSave_uploaded (session w));
         parses := [];
         uploads := [];
         callbacks := callbacks w;
         escaped := escaped w |}
| upload_rejected e :
    state (session w) = uploading ->
    length (uploads w) = 1 ->
    transition props w (UploadSettles 0 (Rejected (val e)))
      {| session := setState [Kstate parsed; KuploadError (message e)] (session w);
         parses := [];
         uploads := [];
         callbacks := callbacks w;
         escaped := escaped w |}
| upload_rejected_nullish e :
    state (session w) = uploading ->
    length (uploads w) = 1 ->
    e = null \/ e = undefined ->
    transition props w (UploadSettles 0 (Rejected e))
      {| session := session w;
         parses := [];
         uploads := [];
         callbacks := callbacks w;
         escaped := escaped w
                    ++ [TypeError "Cannot read properties of null or undefined"] |}
| progress i progressEvent :
    i < length (callbacks w) ->
    transition props w (Progress i progressEvent)
      (with_session w (fst (run (onUploadProgress progressEvent) (session w)))).

(** The moves between the four states that the handlers make. *)
Definition next_phase (a b : Phase) : bool :=
  match a, b with
  | idle, idle | idle, parsing => true
  | parsing, parsing | parsing, parsed => true
  | parsed, parsed | parsed, idle | parsed, uploading => true
  | uploading, uploading | uploading, idle | uploading, parsed => true
  | _, _ => false
  end.

(** What the session holds in each state, in a reachable world. *)
Record shape (props : Props) (w : World) : Prop := {
  (* before a file is parsed there is no dataset, no stats and no header *)
  shape_idle :
    state (session w) = idle ->
    parsedData (session w) = null
    /\ validationStats (session w) = null
    /\ fields (session w) = null;
  shape_parsing :
    state (session w) = parsing ->
    errors (session w) = null
    /\ parsedData (session w) = null
    /\ validationStats (session w) = null
    /\ fields (session w) = null;
  (* after a parse: its errors, stats and header; a dataset with at least
     one row and a file name when there is no error *)
  shape_parsed :
    state (session w) = parsed \/ state (session w) = uploading ->
    exists l stats fs,
      errors (session w) = val (Messages l)
      /\ validationStats (session w) = val stats
      /\ fields (session w) = val fs
      /\ (l = [] ->
          exists d n,
            parsedData (session w) = val d /\ d <> []
            /\ fileName (session w) = val n);
  (* an upload runs only on what the Upload button accepted *)
  shape_uploading :
    state (session w) = uploading ->
    errors (session w) = val (Messages [])
    /\ uploadError (session w) = null
    /\ (exists n, uploadProgress (session w) = val n)
    /\ lodash.every (requiredColumns props)
         (fun c => truthy (columnIsPresent (session w) (inputName c))) = true;
  (* an upload error is on the page only after a failed upload, with the
     dataset still as the Upload button accepted it *)
  shape_failed :
    truthy (uploadError (session w)) = true ->
    state (session w) = parsed
    /\ errors (session w) = val (Messages [])
    /\ lodash.every (requiredColumns props)
         (fun c => truthy (columnIsPresent (session w) (inputName c))) = true;
  (* only the [initialError] prop can make [errors] a string *)
  shape_errors :
    forall m, errors (session w) = val (Message m) -> w = mount props
}.

(** ** Example runs *)

Module Tour.
Definition props : Props := History.props.

(** The same component, mounted with an error message from the caller. *)
Definition props_with_initialError : Props :=
  {| initialError := val "Bad file";
     maxRows := undefined;
     columnConfig := columnConfig History.props;
     dedupeOn := undefined |}.

Definition parse_error : ErrorObject := {| message := val "Unable to parse" |}.

(** A parse that kept no row and reported two row errors. *)
Definition bad_rows : ParseResult.t :=
  {| ParseResult.data := [];
     ParseResult.fields := ["email"; "Full Name"];
     ParseResult.validationStats :=
       {| totalRows := 2; validRows := 0; invalidRows := 2;
          duplicateRows := 0 |};
     ParseResult.fileName := "people.csv";
     ParseResult.errors := ["Row 1: invalid email"; "Row 2: invalid email"] |}.

Definition half : ProgressEvent := {| loaded := 5; total := 10 |}.
Definition unknown_length : ProgressEvent := {| loaded := 7; total := 0 |}.

(** A file is picked and parsed without errors. *)
Definition parsed : list Event :=
  [Pick [History.file] []; ParseSettles 0 (Fulfilled Example.one_row)].

(** ... the user clicks Upload ... *)
Definition uploading : list Event := parsed ++ [Click].

(** ... the transport reports progress ... *)
Definition reported : list Event := uploading ++ [Progress 0 Example.quarter].

(** ... and fails. *)
Definition failed : list Event :=
  reported ++ [UploadSettles 0 (Rejected (val History.network_down))].

(** The user clicks Upload again. *)
Definition retried : list Event := failed ++ [Click].

(** A selection with a rejected file. *)
Definition wrong_type : list Event := [Pick [] [History.file]].

(** A parse that reports row errors. *)
Definition parsed_with_errors : list Event :=
  History.picked ++ [ParseSettles 0 (Fulfilled bad_rows)].

(** A parse that fails. *)
Definition parse_failed : list Event :=
  History.picked ++ [ParseSettles 0 (Rejected (val parse_error))].
End Tour.

Ltac by_computation := vm_compute; reflexivity.

(** ** A second attempt after a first one *)

Module Again.
(** people.csv is parsed and its upload, half reported, fails; the user
    deletes it. *)
Definition first_attempt : list Event :=
  Tour.uploading
  ++ [Progress 0 Tour.half;
      UploadSettles 0 (Rejected (val History.network_down));
      Delete].

(** more.csv is picked ... *)
Definition second_pick : list Event :=
  first_attempt ++ [Pick [History.next_file] []].

(** ... and its parse reports a row error. *)
Definition more_bad_rows : ParseResult.t :=
  {| ParseResult.data := [];
     ParseResult.fields := ["email"; "Full Name"];
     ParseResult.validationStats :=
       {| totalRows := 1; validRows := 0; invalidRows := 1;
          duplicateRows := 0 |};
     ParseResult.fileName := "more.csv";
     ParseResult.errors := ["Row 1: invalid email"] |}.

Definition second_parsed : list Event :=
  second_pick ++ [ParseSettles 0 (Fulfilled more_bad_rows)].

(** An upload whose promise is rejected without a value. *)
Definition rejected_without_value : list Event :=
  Tour.uploading ++ [UploadSettles 0 (Rejected undefined)].
End Again.


(** * Properties *)

(** ** Auxiliary facts *)

Lemma Phase_eqb_eq (a b : Phase) : Phase_eqb a b = true <-> a = b.
Proof. destruct a, b; simpl; split; congruence. Qed.

Lemma Phase_eqb_neq (a b : Phase) : Phase_eqb a b = false <-> a <> b.
Proof. destruct a, b; simpl; split; congruence. Qed.

Lemma indexOf_lower_bound (l : list string) (x : string) : (-1 <= indexOf l x)%Z.
Proof.
  induction l as [|y l IH]; simpl; [lia|].
  destruct (String.eqb y x); [lia|].
  destruct (Z.eqb_spec (indexOf l x) (-1)); lia.
Qed.

Lemma indexOf_absent (l : list string) (x : string) :
  indexOf l x = (-1)%Z <-> ~ In x l.
Proof.
  induction l as [|y l IH]; simpl.
  - tauto.
  - destruct (String.eqb_spec y x) as [->|Hne].
    + split; [discriminate | intros H; exfalso; apply H; now left].
    + destruct (Z.eqb_spec (indexOf l x) (-1)) as [E|E].
      * split; [|reflexivity]. intros _ [H|H]; [congruence | now apply IH].
      * pose proof (indexOf_lower_bound l x) as Hlow.
        split; [lia|]. intros H. exfalso. apply E, IH. tauto.
Qed.

Lemma columnIsPresent_absent (s : Session) (column : string) :
  (forall fs, fields s = val fs -> ~ In column fs) ->
  truthy (columnIsPresent s column) = false.
Proof.
  intros H. unfold columnIsPresent.
  destruct (fields s) as [| |fs]; try reflexivity.
  apply (proj2 (indexOf_absent fs column)) in H; [|reflexivity].
  rewrite H. reflexivity.
Qed.

Lemma requiredColumns_spec (props : Props) (c : ColumnSpec) :
  In c (requiredColumns props) <->
  In c (lodash.collection (columnConfig props)) /\ truthy (required c) = true.
Proof. unfold requiredColumns, lodash.partition. simpl. apply filter_In. Qed.

(** ** Required columns *)

(** C1. If a column of [columnConfig] with a truthy [required] has an
    [inputName] that is not among the session's [fields] (or no header has
    been parsed, [fields] being null), then [canSaveAndContinue] is false
    whatever the rest of the session holds: where the Upload button is
    rendered it is disabled, and its click handler does not call
    [onSave]. *)
Theorem missing_required_column_blocks_upload
    (props : Props) (s : Session) (c : ColumnSpec) :
  In c (lodash.collection (columnConfig props)) ->
  truthy (required c) = true ->
  (forall fs, fields s = val fs -> ~ In (inputName c) fs) ->
  canSaveAndContinue props s = false
  /\ (forall v, render props s = Some v ->
        uploadButton v = None \/ uploadButton v = Some true)
  /\ onClick props s = Return
  /\ run (onClick props s) s = (s, Completed).
Proof.
  intros Hin Hreq Habsent.
  assert (Hcan : canSaveAndContinue props s = false).
  { unfold canSaveAndContinue, lodash.every.
    apply andb_false_iff. right.
    destruct (forallb _ (requiredColumns props)) eqn:E; [|reflexivity].
    rewrite forallb_forall in E.
    specialize (E c (proj2 (requiredColumns_spec props c) (conj Hin Hreq))).
    rewrite (columnIsPresent_absent s (inputName c) Habsent) in E.
    discriminate. }
  repeat split.
  - exact Hcan.
  - intros v Hv. unfold render in Hv.
    destruct (render_errorMessages s); [|discriminate].
    injection Hv as <-. simpl. rewrite Hcan.
    destruct (Phase_eqb (state s) uploading || Phase_eqb (state s) parsed);
      [right | left]; reflexivity.
  - unfold onClick. now rewrite Hcan.
  - unfold onClick. now rewrite Hcan.
Qed.

Lemma missing_required_column_blocks_upload_witness :
  canSaveAndContinue RequiredColumn.props RequiredColumn.session = false
  /\ (forall v, render RequiredColumn.props RequiredColumn.session = Some v ->
        uploadButton v = None \/ uploadButton v = Some true)
  /\ onClick RequiredColumn.props RequiredColumn.session = Return
  /\ run (onClick RequiredColumn.props RequiredColumn.session)
       RequiredColumn.session = (RequiredColumn.session, Completed).
Proof.
  apply (missing_required_column_blocks_upload
           RequiredColumn.props RequiredColumn.session RequiredColumn.email).
  - simpl. left. reflexivity.
  - reflexivity.
  - intros fs Hfs. injection Hfs as <-. simpl.
    intros [Heq|[]]. discriminate Heq.
Defined.

(** ** Progress events *)

Lemma onUploadProgress_uploading (ev : ProgressEvent) (s : Session) :
  state s = uploading ->
  run (onUploadProgress ev) s
  = (setState [KuploadProgress (val (Math_round_quotient (loaded ev) (total ev)))] s,
     Completed).
Proof.
  intros H. unfold onUploadProgress. cbn [run]. rewrite H. reflexivity.
Qed.

(** C3. A progress event that arrives when the session is not in the
    "uploading" state is ignored: the callback leaves the whole session as
    it was. *)
Theorem stale_progress_event_ignored (ev : ProgressEvent) (s : Session) :
  state s <> uploading ->
  run (onUploadProgress ev) s = (s, Completed).
Proof.
  intros H. simpl.
  apply Phase_eqb_neq in H. rewrite H. reflexivity.
Qed.

Lemma stale_progress_event_ignored_witness :
  state RequiredColumn.session <> uploading
  /\ run (onUploadProgress Example.quarter) RequiredColumn.session
     = (RequiredColumn.session, Completed).
Proof.
  split.
  - discriminate.
  - apply (stale_progress_event_ignored Example.quarter RequiredColumn.session).
    discriminate.
Defined.

Lemma onUploadProgress_frame (ev : ProgressEvent) (s : Session) :
  same_but_uploadProgress s (fst (run (onUploadProgress ev) s))
  /\ snd (run (onUploadProgress ev) s) = Completed.
Proof.
  simpl. destruct (Phase_eqb (state s) uploading); simpl;
    unfold same_but_uploadProgress; simpl; tauto.
Qed.

Lemma same_but_uploadProgress_trans (a b c : Session) :
  same_but_uploadProgress a b -> same_but_uploadProgress b c ->
  same_but_uploadProgress a c.
Proof.
  unfold same_but_uploadProgress. intros H1 H2.
  decompose [and] H1. decompose [and] H2. repeat split; congruence.
Qed.

(** The request [onSave] builds carries the session's dataset and file
    name, and [onUploadProgress] under the key of that name. *)
Lemma onSave_suspends (s0 : Session) :
  exists k,
    run onSave s0
    = (setState [Kstate uploading; KuploadError null;
                 KuploadProgress (val (Int 0))] s0,
       AwaitingUpload
         {| Request.data := parsedData s0;
            Request.fileName := fileName s0;
            Request.onUploadProgress := onUploadProgress |}
         k)
    /\ forall r s,
         run (k r) s
         = run (try_catch (await (fun _ : unit => onSave_uploaded) r)
                  onSave_catch) s.
Proof. eexists. split; reflexivity. Qed.

Lemma deliver_frame (evs : list ProgressEvent) (req : Request.t Task) (s : Session) :
  Request.onUploadProgress req = onUploadProgress ->
  same_but_uploadProgress s (deliver req evs s).
Proof.
  intros Hreq. unfold deliver. rewrite Hreq. clear Hreq.
  revert s. induction evs as [|ev evs IH]; intros s.
  - unfold same_but_uploadProgress. simpl. tauto.
  - cbn [fold_left].
    eapply same_but_uploadProgress_trans; [|apply IH].
    apply onUploadProgress_frame.
Qed.

(** ** The outcome of an upload *)

Lemma onSave_uploading_frame (s0 : Session) (evs : list ProgressEvent) :
  exists req s2 k,
    onSave_uploading s0 evs = Some (req, s2, k)
    /\ Request.data req = parsedData s0
    /\ Request.fileName req = fileName s0
    /\ Request.onUploadProgress req = onUploadProgress
    /\ (forall r s,
          run (k r) s
          = run (try_catch (await (fun _ : unit => onSave_uploaded) r)
                   onSave_catch) s)
    /\ state s2 = uploading
    /\ errors s2 = errors s0
    /\ parsedData s2 = parsedData s0
    /\ validationStats s2 = validationStats s0
    /\ fields s2 = fields s0
    /\ fileName s2 = fileName s0.
Proof.
  unfold onSave_uploading. cbn [run onSave try_catch].
  do 3 eexists. split; [reflexivity|].
  repeat (split; [reflexivity|]).
  match goal with
  | |- context [deliver ?req evs ?s1] =>
      destruct (deliver_frame evs req s1 eq_refl)
        as (Hst & Herr & _ & Hdata & Hstats & Hfields & Hname)
  end.
  rewrite Hst, Herr, Hdata, Hstats, Hfields, Hname.
  repeat split.
Qed.

(** X18. When [onUpload] raises an error [e] that is an object (so that
    [e.message] can be read), whatever progress events were reported
    before, [onSave] finishes
    without the error leaving it, and the session is the one at the
    moment of the failure with [state] set to "parsed" and [uploadError]
    set to [e.message] and nothing else written: [parsedData], [fileName],
    [validationStats], [fields] and [errors] are those the session had
    when [onSave] was called. *)
Theorem failed_upload_returns_to_parsed
    (s0 : Session) (evs : list ProgressEvent) (e : ErrorObject) :
  exists req s2 k,
    onSave_uploading s0 evs = Some (req, s2, k)
    /\ onSave_settled s0 evs (Rejected (val e))
       = Some (setState [Kstate parsed; KuploadError (message e)] s2, Completed)
    /\ state (setState [Kstate parsed; KuploadError (message e)] s2) = parsed
    /\ uploadError (setState [Kstate parsed; KuploadError (message e)] s2)
       = message e
    /\ parsedData (setState [Kstate parsed; KuploadError (message e)] s2)
       = parsedData s0
    /\ fileName (setState [Kstate parsed; KuploadError (message e)] s2)
       = fileName s0
    /\ validationStats (setState [Kstate parsed; KuploadError (message e)] s2)
       = validationStats s0
    /\ fields (setState [Kstate parsed; KuploadError (message e)] s2)
       = fields s0
    /\ errors (setState [Kstate parsed; KuploadError (message e)] s2)
       = errors s0
    /\ uploadProgress (setState [Kstate parsed; KuploadError (message e)] s2)
       = uploadProgress s2.
Proof.
  destruct (onSave_uploading_frame s0 evs)
    as (req & s2 & k & Hrun & _ & _ & _ & Hk & _ & Herr & Hdata & Hstats
        & Hfields & Hname).
  exists req, s2, k. split; [exact Hrun|].
  split.
  { unfold onSave_settled. rewrite Hrun, Hk. reflexivity. }
  simpl. repeat split; assumption.
Qed.

(** C10. When [onUpload] resolves, the session goes to "idle" with
    [errors], [uploadError], [parsedData], [validationStats] and [fields]
    all null; what is rendered then has the file picker and no Upload
    button, so the dataset cannot be sent again without a new parse. *)
Theorem successful_upload_clears_session
    (props : Props) (s0 : Session) (evs : list ProgressEvent) :
  exists s3 v,
    onSave_settled s0 evs (Fulfilled tt) = Some (s3, Completed)
    /\ state s3 = idle
    /\ errors s3 = null
    /\ uploadError s3 = null
    /\ parsedData s3 = null
    /\ validationStats s3 = null
    /\ fields s3 = null
    /\ render props s3 = Some v
    /\ uploadButton v = None
    /\ validationStatsPanel v = None
    /\ filePicker v = true.
Proof.
  destruct (onSave_uploading_frame s0 evs)
    as (req & s2 & k & Hrun & _ & _ & _ & Hk & _).
  unfold onSave_settled. rewrite Hrun, Hk.
  do 2 eexists. split; [reflexivity|].
  repeat split.
Qed.

(** A thrown [null] or [undefined] has no [message]: the catch block of
    [onSave] then fails itself, and the session stays in "uploading". *)
Remark onSave_catch_nullish (s : Session) :
  run (onSave_catch null) s
  = (s, Failed (TypeError "Cannot read properties of null or undefined"))
  /\ run (onSave_catch undefined) s
     = (s, Failed (TypeError "Cannot read properties of null or undefined")).
Proof. split; reflexivity. Qed.

(** ** The stored upload progress *)

Lemma Math_round_quotient_0_or_1 (a b : N) :
  (0 < b)%N -> (a <= b)%N ->
  Math_round_quotient a b = Int (if (2 * a <? b)%N then 0 else 1).
Proof.
  intros Hb Hab. unfold Math_round_quotient.
  destruct (N.eqb_spec b 0) as [->|_]; [lia|].
  f_equal. unfold Math_round.
  destruct b as [|p]; [lia|].
  assert (E : (inject_Z (Z.of_N a) / inject_Z (Z.of_N (N.pos p)) + (1 # 2)
               == (2 * Z.of_N a + Z.pos p) # (2 * p))%Q).
  { unfold Qeq, Qdiv, Qmult, Qinv, Qplus, inject_Z. cbn [Qnum Qden Z.of_N].
    rewrite ?Pos2Z.inj_mul. lia. }
  rewrite E. unfold Qfloor.
  destruct (N.ltb_spec (2 * a) (N.pos p)) as [Hlt|Hge].
  - apply Z.div_small. lia.
  - symmetry. apply (Z.div_unique _ _ 1 (2 * Z.of_N a - Z.pos p)); lia.
Qed.

(** C7, at the event [{loaded: 1, total: 4}] in the "uploading" state: the
    callback stores [Math.round(1 / 4)], which is 0 and not the fraction
    1/4, and the label shows 0 percent. The callback sits in the request
    under the key [onUploadProgress]. *)
Theorem quarter_progress_is_stored_as_zero (props : Props) (s : Session) :
  uploadProgress
    (fst (run (onUploadProgress Example.quarter) (setState [Kstate uploading] s)))
  = val (Int 0)
  /\ ~ (inject_Z 0 == 1 # 4)%Q
  /\ (exists v,
        render props
          (fst (run (onUploadProgress Example.quarter)
                  (setState [Kstate uploading; Kerrors null; KuploadError null] s)))
        = Some v
        /\ uploadingPercent v = Some (Int 0))
  /\ (exists req s1 k,
        run onSave s = (s1, AwaitingUpload req k)
        /\ Request.onUploadProgress req = onUploadProgress).
Proof.
  split; [reflexivity|].
  split; [intros H; discriminate H|].
  split.
  - eexists. split; reflexivity.
  - do 3 eexists. split; reflexivity.
Qed.

(** ** Picking files *)

(** A selection with a rejected file, or with more than one file in all,
    is answered with the single message and nothing else: no other key of
    the session is written and the handler does not reach [parseCSV]. *)
Lemma onPickCSV_refuses (props : Props) (acceptedFiles rejectedFiles : list File)
    (s : Session) :
  0 < length rejectedFiles \/ 1 < length acceptedFiles + length rejectedFiles ->
  run (onPickCSV props acceptedFiles rejectedFiles) s
  = (setState [Kerrors (val (Messages ["Please upload a single CSV file"]))] s,
     Completed).
Proof.
  intros H. unfold onPickCSV.
  replace ((0 <? length rejectedFiles)
           || (1 <? length acceptedFiles + length rejectedFiles)) with true.
  - reflexivity.
  - symmetry. apply orb_true_iff.
    destruct H as [H|H]; [left|right]; now apply Nat.ltb_lt.
Qed.

(** A selection of exactly one accepted file is parsed. *)
Lemma onPickCSV_single_file (props : Props) (file : File) (s : Session) :
  run (onPickCSV props [file] []) s
  = (setState [Kerrors null; KparsedData null; KvalidationStats null;
               Kfields null; Kstate parsing] s,
     AwaitingParse (val file)
       {| Options.maxRows := maxRows props;
          Options.columnConfig := columnConfig props;
          Options.dedupeOn := dedupeOn props |}
       (await onPickCSV_parsed)).
Proof. reflexivity. Qed.

(** C5, at the selection of no file at all ([acceptedFiles] and
    [rejectedFiles] both empty): the guard of [onPickCSV] lets it through,
    no message is set ([errors] becomes null), the session enters
    "parsing" and [parseCSV] is called with [acceptedFiles[0]], which is
    [undefined]. *)
Theorem empty_selection_starts_a_parse (props : Props) (s : Session) :
  run (onPickCSV props [] []) s
  = (setState [Kerrors null; KparsedData null; KvalidationStats null;
               Kfields null; Kstate parsing] s,
     AwaitingParse undefined
       {| Options.maxRows := maxRows props;
          Options.columnConfig := columnConfig props;
          Options.dedupeOn := dedupeOn props |}
       (await onPickCSV_parsed))
  /\ state (fst (run (onPickCSV props [] []) s)) = parsing
  /\ errors (fst (run (onPickCSV props [] []) s)) = null.
Proof. repeat split. Qed.

(** ** The result of a parse *)

(** C8. When a parse resolves with an empty [errors] array, the session's
    [errors] is the one-message array "Please upload at least one valid
    row." exactly when [data] is empty; with at least one row in [data],
    [errors] is the empty array. In both cases [parsedData] is [data] and
    the session is "parsed". *)
Theorem no_valid_rows_error_iff_data_empty (r : ParseResult.t) (s : Session) :
  ParseResult.errors r = [] ->
  snd (run (onPickCSV_parsed r) s) = Completed
  /\ state (fst (run (onPickCSV_parsed r) s)) = parsed
  /\ parsedData (fst (run (onPickCSV_parsed r) s)) = val (ParseResult.data r)
  /\ (errors (fst (run (onPickCSV_parsed r) s))
      = val (Messages ["Please upload at least one valid row."])
      <-> ParseResult.data r = [])
  /\ (ParseResult.data r <> [] ->
      errors (fst (run (onPickCSV_parsed r) s)) = val (Messages [])).
Proof.
  intros H. unfold onPickCSV_parsed. rewrite H. cbn.
  repeat split.
  - destruct (ParseResult.data r); [reflexivity | discriminate].
  - intros ->. reflexivity.
  - destruct (ParseResult.data r); [congruence | reflexivity].
Qed.

Lemma no_valid_rows_error_iff_data_empty_witness :
  ParseResult.errors Example.one_row = []
  /\ snd (run (onPickCSV_parsed Example.one_row) RequiredColumn.session)
     = Completed
  /\ state (fst (run (onPickCSV_parsed Example.one_row) RequiredColumn.session))
     = parsed
  /\ parsedData
       (fst (run (onPickCSV_parsed Example.one_row) RequiredColumn.session))
     = val (ParseResult.data Example.one_row)
  /\ (errors (fst (run (onPickCSV_parsed Example.one_row) RequiredColumn.session))
      = val (Messages ["Please upload at least one valid row."])
      <-> ParseResult.data Example.one_row = [])
  /\ (ParseResult.data Example.one_row <> [] ->
      errors (fst (run (onPickCSV_parsed Example.one_row) RequiredColumn.session))
      = val (Messages [])).
Proof.
  split.
  - reflexivity.
  - apply (no_valid_rows_error_iff_data_empty
             Example.one_row RequiredColumn.session).
    reflexivity.
Defined.

(** When the parse resolves with errors, they are put into the session as
    they are, and neither [parsedData] nor [fileName] is written. *)
Lemma onPickCSV_parsed_with_errors (r : ParseResult.t) (s : Session) :
  ParseResult.errors r <> [] ->
  run (onPickCSV_parsed r) s
  = (setState [Kstate parsed;
               KvalidationStats (val (ParseResult.validationStats r));
               Kerrors (val (Messages (ParseResult.errors r)));
               Kfields (val (ParseResult.fields r))] s,
     Completed).
Proof.
  intros H. unfold onPickCSV_parsed.
  destruct (ParseResult.errors r); [congruence | reflexivity].
Qed.

(** ** The error list on the page *)

Lemma firstn_9_length {A} (l : list A) :
  length (firstn 9 l) = if 9 <? length l then 9 else length l.
Proof.
  rewrite length_firstn.
  destruct (Nat.ltb_spec 9 (length l)); lia.
Qed.

(** C6. When the session's [errors] is an array [l]: the validation errors
    put on the page are the first 9 entries of [l] (all of [l] when it has
    at most 9); [rest] is the length of [l] minus the number of those; the
    line "...and [rest] more rows with errors" appears exactly when [l] has
    more than 9 entries, with [rest] = length of [l] - 9. The boxes show
    these first entries unless an upload error is shown in their place. *)
Theorem first_nine_errors_and_overflow_count
    (props : Props) (s : Session) (l : list string) :
  errors s = val (Messages l) ->
  validationErrors s = val (Messages (firstn 9 l))
  /\ length (firstn 9 l) <= 9
  /\ allErrorLength s = Int (Z.of_nat (length l))
  /\ visibleErrors s = Int (Z.of_nat (length (firstn 9 l)))
  /\ rest s = Int (Z.of_nat (length l - length (firstn 9 l)))
  /\ exists v,
       render props s = Some v
       /\ moreRowsWithErrors v
          = (if 9 <? length l
             then Some (Int (Z.of_nat (length l - 9)))
             else None)
       /\ (truthy (uploadError s) = false -> errorMessages v = firstn 9 l).
Proof.
  intros H.
  assert (Hv : validationErrors s = val (Messages (firstn 9 l))).
  { unfold validationErrors. rewrite H. reflexivity. }
  assert (Hall : allErrorLength s = Int (Z.of_nat (length l))).
  { unfold allErrorLength. rewrite H. reflexivity. }
  assert (Hvis : visibleErrors s = Int (Z.of_nat (length (firstn 9 l)))).
  { unfold visibleErrors. rewrite Hv. reflexivity. }
  assert (Hle : length (firstn 9 l) <= length l).
  { rewrite length_firstn. lia. }
  assert (Hrest : rest s = Int (Z.of_nat (length l - length (firstn 9 l)))).
  { unfold rest. rewrite Hall, Hvis. unfold minus. f_equal. lia. }
  repeat (split; [first [assumption | rewrite length_firstn; lia]|]).
  unfold render, render_errorMessages, render_errors.
  rewrite Hv, Hrest.
  assert (Hmore :
    (if truthy (Int (Z.of_nat (length l - length (firstn 9 l))))
     then Some (Int (Z.of_nat (length l - length (firstn 9 l))))
     else @None number)
    = if 9 <? length l then Some (Int (Z.of_nat (length l - 9))) else None).
  { rewrite firstn_9_length. unfold truthy, Truthy_number.
    destruct (Nat.ltb_spec 9 (length l)).
    - destruct (Z.eqb_spec (Z.of_nat (length l - 9)) 0); [lia | reflexivity].
    - replace (length l - length l) with 0 by lia. reflexivity. }
  destruct (uploadError s) as [| |m]; simpl;
    try (eexists; split; [reflexivity|]; split; [exact Hmore | reflexivity]).
  destruct m as [|c m]; simpl;
    eexists; (split; [reflexivity|]); (split; [exact Hmore|]).
  - reflexivity.
  - discriminate.
Qed.

Lemma first_nine_errors_and_overflow_count_witness :
  exists v,
    render RequiredColumn.props Example.twelve_errors = Some v
    /\ moreRowsWithErrors v = Some (Int 3)
    /\ errorMessages v
       = ["e1"; "e2"; "e3"; "e4"; "e5"; "e6"; "e7"; "e8"; "e9"].
Proof.
  destruct (first_nine_errors_and_overflow_count
              RequiredColumn.props Example.twelve_errors
              ["e1"; "e2"; "e3"; "e4"; "e5"; "e6";
               "e7"; "e8"; "e9"; "e10"; "e11"; "e12"] eq_refl)
    as (_ & _ & _ & _ & _ & v & Hv & Hmore & Hshown).
  exists v. split; [exact Hv|]. split; [exact Hmore|].
  apply Hshown. reflexivity.
Defined.

(** ** What the reachable worlds have in common *)

Lemma render_widgets (props : Props) (s : Session) (v : View) :
  render props s = Some v ->
  filePicker v = Phase_eqb (state s) idle
  /\ validationStatsPanel v
     = (if Phase_eqb (state s) parsed || Phase_eqb (state s) uploading
        then Some (validationStats s, Phase_eqb (state s) parsed)
        else None)
  /\ uploadButton v
     = (if Phase_eqb (state s) uploading || Phase_eqb (state s) parsed
        then Some (negb (canSaveAndContinue props s))
        else None).
Proof.
  unfold render. destruct (render_errorMessages s); [|discriminate].
  intros H. injection H as <-. repeat split.
Qed.

Lemma onPickCSV_accepts (props : Props) (acceptedFiles rejectedFiles : list File)
    (s : Session) :
  (0 <? length rejectedFiles)
  || (1 <? length acceptedFiles + length rejectedFiles) = false ->
  run (onPickCSV props acceptedFiles rejectedFiles) s
  = (setState [Kerrors null; KparsedData null; KvalidationStats null;
               Kfields null; Kstate parsing] s,
     AwaitingParse (first acceptedFiles)
       {| Options.maxRows := maxRows props;
          Options.columnConfig := columnConfig props;
          Options.dedupeOn := dedupeOn props |}
       (await onPickCSV_parsed)).
Proof. intros H. unfold onPickCSV. rewrite H. reflexivity. Qed.

Lemma onPickCSV_parsed_runs (r : ParseResult.t) (s : Session) :
  exists s',
    run (onPickCSV_parsed r) s = (s', Completed)
    /\ state s' = parsed
    /\ uploadError s' = uploadError s
    /\ validationStats s' = val (ParseResult.validationStats r)
    /\ fields s' = val (ParseResult.fields r)
    /\ errors s'
       = val (Messages
                (match ParseResult.errors r, ParseResult.data r with
                 | [], [] => ["Please upload at least one valid row."]
                 | errs, _ => errs
                 end)).
Proof.
  unfold onPickCSV_parsed.
  destruct (ParseResult.errors r) as [|m errs]; cbn.
  - eexists. split; [reflexivity|]. repeat split.
    destruct (ParseResult.data r); reflexivity.
  - eexists. split; [reflexivity|]. repeat split.
Qed.

Lemma onSave_resumed (r : Settled unit) (s : Session) :
  run (try_catch (await (fun _ : unit => onSave_uploaded) r) onSave_catch) s
  = match r with
    | Fulfilled _ =>
        (setState [Kstate idle; Kerrors null; KuploadError null;
                   KparsedData null; KvalidationStats null; Kfields null] s,
         Completed)
    | Rejected (val e) =>
        (setState [Kstate parsed; KuploadError (message e)] s, Completed)
    | Rejected _ =>
        (s, Failed (TypeError "Cannot read properties of null or undefined"))
    end.
Proof. destruct r as [[]|[| |e]]; reflexivity. Qed.

Lemma nth_error_singleton {A} (l : list A) (i : nat) (x : A) :
  length l = 1 -> nth_error l i = Some x -> i = 0 /\ l = [x].
Proof.
  destruct l as [|y [|z l]]; simpl; try discriminate. intros _.
  destruct i as [|i]; simpl.
  - intros H. injection H as ->. split; reflexivity.
  - destruct i; discriminate.
Qed.

Lemma invariant_mount (props : Props) : invariant (mount props).
Proof.
  constructor; simpl; auto.
  intros [H|H]; [discriminate | discriminate].
Qed.


Lemma none_in_flight (w : World) (ph : Phase) :
  invariant w -> state (session w) = ph ->
  (ph <> parsing -> parses w = []) /\ (ph <> uploading -> uploads w = []).
Proof.
  intros Hinv Hst. split; intros Hne.
  - destruct (inv_one_parse w Hinv) as [|[H _]]; [assumption | congruence].
  - destruct (inv_one_upload w Hinv) as [|[H _]]; [assumption | congruence].
Qed.

Lemma dispatch_completed (t : Task) (w : World) (s : Session) :
  run t (session w) = (s, Completed) ->
  dispatch t w
  = {| session := s; parses := parses w; uploads := uploads w;
       callbacks := callbacks w; escaped := escaped w |}.
Proof. intros H. unfold dispatch. rewrite H. reflexivity. Qed.

Lemma dispatch_failed (t : Task) (w : World) (s : Session) (e : Thrown) :
  run t (session w) = (s, Failed e) ->
  dispatch t w
  = {| session := s; parses := parses w; uploads := uploads w;
       callbacks := callbacks w; escaped := escaped w ++ [e] |}.
Proof. intros H. unfold dispatch. rewrite H. reflexivity. Qed.

Lemma invariant_step (props : Props) (w w' : World) (ev : Event) :
  invariant w -> step props w ev = Some w' -> invariant w'.
Proof.
  intros Hinv Hstep.
  pose proof Hinv as [Hps Hus Hcs Hone_p Hone_u Hue Herr].
  destruct ev as [acc rej| | |i r|i r|i pe]; simpl in Hstep.
  - (* Pick: the file picker is rendered, so the session is idle *)
    destruct (render props (session w)) as [v|] eqn:Hv; [|discriminate].
    destruct (render_widgets _ _ _ Hv) as (Hfp & _ & _).
    rewrite Hfp in Hstep.
    destruct (Phase_eqb (state (session w)) idle) eqn:Hidle; [|discriminate].
    apply Phase_eqb_eq in Hidle. injection Hstep as <-.
    destruct (none_in_flight w idle Hinv Hidle) as [Hp Hu].
    specialize (Hp ltac:(discriminate)). specialize (Hu ltac:(discriminate)).
    destruct ((0 <? length rej) || (1 <? length acc + length rej)) eqn:Hguard.
    + rewrite (dispatch_completed _ _
                 (setState [Kerrors (val (Messages ["Please upload a single CSV file"]))]
                    (session w))).
      2:{ unfold onPickCSV. rewrite Hguard. reflexivity. }
      constructor; cbn; auto.
      intros [H|H]; [congruence | rewrite Hue in H by auto; discriminate].
    + unfold dispatch. rewrite (onPickCSV_accepts _ _ _ _ Hguard). rewrite Hp.
      constructor; cbn; auto.
      constructor; [|constructor]. intros r s. reflexivity.
  - (* Delete: offered in the parsed state only *)
    destruct (render props (session w)) as [v|] eqn:Hv; [|discriminate].
    destruct (render_widgets _ _ _ Hv) as (_ & Hpanel & _).
    rewrite Hpanel in Hstep.
    destruct (state (session w)) eqn:Hst; simpl in Hstep; try discriminate.
    injection Hstep as <-.
    destruct (none_in_flight w parsed Hinv Hst) as [Hp Hu].
    specialize (Hp ltac:(discriminate)). specialize (Hu ltac:(discriminate)).
    rewrite (dispatch_completed _ _
               (setState [Kerrors null; KuploadError null; KparsedData null;
                          KvalidationStats null; Kfields null; Kstate idle]
                  (session w))) by reflexivity.
    constructor; cbn; auto.
  - (* Click: the button is rendered in the parsed and uploading states *)
    destruct (render props (session w)) as [v|] eqn:Hv; [|discriminate].
    destruct (render_widgets _ _ _ Hv) as (_ & _ & Hb).
    rewrite Hb in Hstep.
    destruct (Phase_eqb (state (session w)) uploading
              || Phase_eqb (state (session w)) parsed) eqn:Hshown;
      [|discriminate].
    injection Hstep as <-.
    unfold onClick.
    destruct (canSaveAndContinue props (session w)) eqn:Hcan.
    + unfold canSaveAndContinue in Hcan.
      apply andb_true_iff in Hcan. destruct Hcan as [Hcan _].
      apply andb_true_iff in Hcan. destruct Hcan as [Hnoerr Hnotup].
      apply negb_true_iff in Hnoerr. apply negb_true_iff in Hnotup.
      rewrite Hnotup in Hshown. simpl in Hshown. apply Phase_eqb_eq in Hshown.
      destruct (none_in_flight w parsed Hinv Hshown) as [Hp Hu].
      specialize (Hp ltac:(discriminate)). specialize (Hu ltac:(discriminate)).
      unfold dispatch. cbn [run onSave try_catch]. rewrite Hu.
      constructor; cbn; auto.
      * constructor; [|constructor]. intros r s. reflexivity.
      * apply Forall_app. split; [assumption|].
        constructor; [|constructor]. intros e s. reflexivity.
    + rewrite (dispatch_completed _ _ (session w)) by reflexivity.
      constructor; cbn; auto.
  - (* a parse settles *)
    destruct (nth_error (parses w) i) as [p|] eqn:Hp; [|discriminate].
    injection Hstep as <-.
    destruct Hone_p as [Hnil|[Hst Hlen]];
      [rewrite Hnil in Hp; destruct i; discriminate|].
    destruct (nth_error_singleton _ _ _ Hlen Hp) as [-> Hsingle].
    rewrite Hsingle in *. cbn [remove_nth].
    destruct (none_in_flight w parsing Hinv Hst) as [_ Hu].
    specialize (Hu ltac:(discriminate)).
    apply Forall_inv in Hps. unfold resumes_onPickCSV in Hps.
    destruct r as [r|e].
    + destruct (onPickCSV_parsed_runs r (session w))
        as (s' & Hrun & Hst' & Hue' & _).
      rewrite (dispatch_completed _ _ s') by (cbn; rewrite Hps; exact Hrun).
      constructor; cbn; auto.
      * intros [H|H]; congruence.
      * intros [H|H]; [congruence|].
        rewrite Hue', Hue in H by auto. discriminate.
    + rewrite (dispatch_failed _ _ (session w) e) by (cbn; rewrite Hps; reflexivity).
      constructor; cbn; auto.
  - (* an upload settles *)
    destruct (nth_error (uploads w) i) as [u|] eqn:Hu; [|discriminate].
    injection Hstep as <-.
    destruct Hone_u as [Hnil|[Hst Hlen]];
      [rewrite Hnil in Hu; destruct i; discriminate|].
    destruct (nth_error_singleton _ _ _ Hlen Hu) as [-> Hsingle].
    rewrite Hsingle in *. cbn [remove_nth].
    destruct (none_in_flight w uploading Hinv Hst) as [Hp _].
    specialize (Hp ltac:(discriminate)).
    apply Forall_inv in Hus. unfold resumes_onSave in Hus.
    pose proof (Hus r (session w)) as Hrun. rewrite onSave_resumed in Hrun.
    destruct r as [[]|[| |e]].
    + erewrite dispatch_completed by (cbn; exact Hrun).
      constructor; cbn; auto.
    + erewrite dispatch_failed by (cbn; exact Hrun).
      constructor; cbn; auto.
    + erewrite dispatch_failed by (cbn; exact Hrun).
      constructor; cbn; auto.
    + erewrite dispatch_completed by (cbn; exact Hrun).
      constructor; cbn; auto.
      intros [H|H]; discriminate.
  - (* a progress event *)
    destruct (nth_error (callbacks w) i) as [cb|] eqn:Hcb; [|discriminate].
    injection Hstep as <-.
    apply nth_error_In in Hcb.
    pose proof (proj1 (Forall_forall _ _) Hcs cb Hcb pe (session w)) as Hcall.
    destruct (onUploadProgress_frame pe (session w)) as [Hframe Hdone].
    destruct (run (onUploadProgress pe) (session w)) as [s' o] eqn:Hrun.
    simpl in Hframe, Hdone. subst o.
    destruct Hframe as (Hst & Herrs & Hue' & _).
    rewrite (dispatch_completed _ _ s') by congruence.
    constructor; cbn; auto; rewrite ?Hst, ?Herrs, ?Hue'; assumption.
Qed.

Lemma invariant_steps (props : Props) (evs : list Event) (w w' : World) :
  invariant w -> steps props w evs = Some w' -> invariant w'.
Proof.
  revert w. induction evs as [|ev evs IH]; intros w Hinv Hsteps; simpl in Hsteps.
  - injection Hsteps as <-. exact Hinv.
  - destruct (step props w ev) as [w1|] eqn:Hstep; [|discriminate].
    apply (IH w1); [|exact Hsteps].
    exact (invariant_step props w w1 ev Hinv Hstep).
Qed.

Lemma reachable_invariant (props : Props) (w : World) :
  reachable props w -> invariant w.
Proof.
  intros [evs Hsteps].
  exact (invariant_steps props evs (mount props) w (invariant_mount props) Hsteps).
Qed.

(** In a reachable session an upload error is never shown together with
    entries of [errors]: where [uploadError] is truthy, the [errors] array
    is empty. *)
Lemma reachable_uploadError_without_errors
    (props : Props) (w : World) (l : list string) :
  reachable props w ->
  truthy (uploadError (session w)) = true ->
  errors (session w) = val (Messages l) ->
  l = [].
Proof.
  intros Hreach Hue Herrs.
  pose proof (inv_errors w (reachable_invariant props w Hreach) (or_intror Hue))
    as H.
  rewrite Herrs in H. destruct l; [reflexivity | discriminate H].
Qed.

(** ** A new file selection *)

(** C9, as the component has it. Whenever a file selection starts a parse
    in a reachable world, the session the parse starts from has [errors],
    [uploadError], [parsedData], [validationStats] and [fields] all null
    and is in the "parsing" state, and the new parse is the only one in
    flight. [onPickCSV] writes four of the five keys itself; [uploadError]
    it does not write: it is null because the file picker is rendered in
    the idle state only, and every way into that state leaves it null.
    [fileName] and [uploadProgress] are not reset: the session keeps what
    the earlier attempt left in them. *)
Theorem new_parse_resets_all_but_fileName_and_uploadProgress
    (props : Props) (w w' : World) (acceptedFiles rejectedFiles : list File) :
  reachable props w ->
  step props w (Pick acceptedFiles rejectedFiles) = Some w' ->
  (0 <? length rejectedFiles)
  || (1 <? length acceptedFiles + length rejectedFiles) = false ->
  state (session w') = parsing
  /\ errors (session w') = null
  /\ uploadError (session w') = null
  /\ parsedData (session w') = null
  /\ validationStats (session w') = null
  /\ fields (session w') = null
  /\ fileName (session w') = fileName (session w)
  /\ uploadProgress (session w') = uploadProgress (session w)
  /\ length (parses w') = 1
  /\ uploads w' = []
  /\ session w'
     = setState [Kerrors null; KparsedData null; KvalidationStats null;
                 Kfields null; Kstate parsing] (session w).
Proof.
  intros Hreach Hstep Hguard.
  pose proof (reachable_invariant props w Hreach) as Hinv.
  simpl in Hstep.
  destruct (render props (session w)) as [v|] eqn:Hv; [|discriminate].
  destruct (render_widgets _ _ _ Hv) as (Hfp & _ & _).
  rewrite Hfp in Hstep.
  destruct (Phase_eqb (state (session w)) idle) eqn:Hidle; [|discriminate].
  apply Phase_eqb_eq in Hidle. injection Hstep as <-.
  destruct (none_in_flight w idle Hinv Hidle) as [Hp Hu].
  specialize (Hp ltac:(discriminate)). specialize (Hu ltac:(discriminate)).
  pose proof (inv_uploadError w Hinv (or_introl Hidle)) as Hue.
  unfold dispatch. rewrite (onPickCSV_accepts _ _ _ _ Hguard). rewrite Hp.
  cbn. repeat split; assumption.
Qed.

Lemma new_parse_resets_all_but_fileName_and_uploadProgress_witness :
  steps History.props (mount History.props) Again.first_attempt
  = Some (History.after Again.first_attempt)
  /\ step History.props (History.after Again.first_attempt)
       (Pick [History.next_file] [])
     = Some (History.after Again.second_pick)
  /\ state (session (History.after Again.second_pick)) = parsing
  /\ errors (session (History.after Again.second_pick)) = null
  /\ uploadError (session (History.after Again.second_pick)) = null
  /\ parsedData (session (History.after Again.second_pick)) = null
  /\ validationStats (session (History.after Again.second_pick)) = null
  /\ fields (session (History.after Again.second_pick)) = null
  /\ fileName (session (History.after Again.second_pick))
     = fileName (session (History.after Again.first_attempt))
  /\ uploadProgress (session (History.after Again.second_pick))
     = uploadProgress (session (History.after Again.first_attempt)).
Proof.
  assert (Hsteps : steps History.props (mount History.props) Again.first_attempt
                   = Some (History.after Again.first_attempt))
    by (vm_compute; reflexivity).
  assert (Hstep : step History.props (History.after Again.first_attempt)
                    (Pick [History.next_file] [])
                  = Some (History.after Again.second_pick))
    by (vm_compute; reflexivity).
  split; [exact Hsteps|]. split; [exact Hstep|].
  destruct (new_parse_resets_all_but_fileName_and_uploadProgress
              History.props (History.after Again.first_attempt)
              (History.after Again.second_pick)
              [History.next_file] []
              (ex_intro _ Again.first_attempt Hsteps) Hstep eq_refl)
    as (H1 & H2 & H3 & H4 & H5 & H6 & H7 & H8 & _).
  repeat (apply conj; [assumption|]). assumption.
Defined.

(** C9, as stated, fails on the two keys [onPickCSV] does not reset. The
    first attempt parsed people.csv and reported half of its upload
    before it failed and was deleted. When more.csv is picked, the session
    its parse starts from still holds the file name "people.csv" and the
    progress 1 of the first attempt, and the name is still there beside
    the errors of more.csv once its parse has settled. *)
Lemma earlier_fileName_and_progress_are_kept :
  steps History.props (mount History.props) Again.second_pick
  = Some (History.after Again.second_pick)
  /\ state (session (History.after Again.second_pick)) = parsing
  /\ map (fun p => parse_file p) (parses (History.after Again.second_pick))
     = [val History.next_file]
  /\ fileName (session (History.after Again.second_pick)) = val "people.csv"
  /\ uploadProgress (session (History.after Again.second_pick)) = val (Int 1)
  /\ steps History.props (mount History.props) Again.second_parsed
     = Some (History.after Again.second_parsed)
  /\ errors (session (History.after Again.second_parsed))
     = val (Messages ["Row 1: invalid email"])
  /\ fileName (session (History.after Again.second_parsed)) = val "people.csv".
Proof. repeat (apply conj; [by_computation|]). by_computation. Qed.

(** ** A parse result that arrives *)

(** The rest of [onPickCSV] does not look at
    the session before it writes: in whatever session [s] a result [r]
    arrives, the session becomes "parsed" with [r]'s [validationStats],
    [fields] and errors. No result can be late, though: in a reachable
    world a parse that settles is the only one in flight, the session has
    been "parsing" since it started, and what the settling leaves is
    that parse's outcome with no parse in flight. *)
Theorem parse_result_is_applied_and_cannot_be_late
    (props : Props) (w w' : World) (i : nat) (r : ParseResult.t) :
  reachable props w ->
  step props w (ParseSettles i (Fulfilled r)) = Some w' ->
  (forall s,
     snd (run (await onPickCSV_parsed (Fulfilled r)) s) = Completed
     /\ state (fst (run (await onPickCSV_parsed (Fulfilled r)) s)) = parsed
     /\ validationStats (fst (run (await onPickCSV_parsed (Fulfilled r)) s))
        = val (ParseResult.validationStats r)
     /\ fields (fst (run (await onPickCSV_parsed (Fulfilled r)) s))
        = val (ParseResult.fields r))
  /\ i = 0
  /\ state (session w) = parsing
  /\ length (parses w) = 1
  /\ parses w' = []
  /\ session w' = fst (run (await onPickCSV_parsed (Fulfilled r)) (session w)).
Proof.
  intros Hreach Hstep.
  pose proof (reachable_invariant props w Hreach) as Hinv.
  split.
  { intros s. cbn [await].
    destruct (onPickCSV_parsed_runs r s) as (s' & Hrun & Hst & _ & Hstats & Hf & _).
    rewrite Hrun. simpl. repeat split; assumption. }
  simpl in Hstep.
  destruct (nth_error (parses w) i) as [p|] eqn:Hp; [|discriminate].
  injection Hstep as <-.
  destruct (inv_one_parse w Hinv) as [Hnil|[Hst Hlen]];
    [rewrite Hnil in Hp; destruct i; discriminate|].
  destruct (nth_error_singleton _ _ _ Hlen Hp) as [-> Hsingle].
  pose proof (inv_parses w Hinv) as Hps.
  rewrite Hsingle in Hps. apply Forall_inv in Hps.
  specialize (Hps (Fulfilled r) (session w)).
  destruct (onPickCSV_parsed_runs r (session w)) as (s' & Hrun & _).
  cbn [await] in *. rewrite Hrun in Hps.
  erewrite dispatch_completed by (cbn; exact Hps).
  rewrite Hsingle, Hrun. cbn. repeat split; assumption.
Qed.

Lemma parse_result_is_applied_and_cannot_be_late_witness :
  steps History.props (mount History.props) History.picked
  = Some (History.after History.picked)
  /\ step History.props (History.after History.picked)
       (ParseSettles 0 (Fulfilled Example.one_row))
     = Some (History.after
               (History.picked ++ [ParseSettles 0 (Fulfilled Example.one_row)]))
  /\ state (session (History.after History.picked)) = parsing
  /\ length (parses (History.after History.picked)) = 1
  /\ parses (History.after
       (History.picked ++ [ParseSettles 0 (Fulfilled Example.one_row)])) = []
  /\ session (History.after
       (History.picked ++ [ParseSettles 0 (Fulfilled Example.one_row)]))
     = fst (run (await onPickCSV_parsed (Fulfilled Example.one_row))
              (session (History.after History.picked))).
Proof.
  assert (Hsteps : steps History.props (mount History.props) History.picked
                   = Some (History.after History.picked))
    by (vm_compute; reflexivity).
  assert (Hstep : step History.props (History.after History.picked)
                    (ParseSettles 0 (Fulfilled Example.one_row))
                  = Some (History.after
                            (History.picked
                             ++ [ParseSettles 0 (Fulfilled Example.one_row)])))
    by (vm_compute; reflexivity).
  split; [exact Hsteps|]. split; [exact Hstep|].
  destruct (parse_result_is_applied_and_cannot_be_late
              History.props (History.after History.picked)
              (History.after
                 (History.picked ++ [ParseSettles 0 (Fulfilled Example.one_row)]))
              0 Example.one_row
              (ex_intro _ History.picked Hsteps) Hstep)
    as (_ & _ & H1 & H2 & H3 & H4).
  repeat split; assumption.
Defined.

(** The handlers called directly, past what the page offers:
    [onPickCSV] is called for file_A and again for file_B before the first
    parse settles; the parse of file_B settles and the session is "parsed"
    with its rows; then the parse of file_A settles. The session is not in
    the "parsing" state any more, and still the earlier parse's result
    replaces the later one's [parsedData] and [fileName]. *)
Lemma late_parse_result_replaces_newer_one :
  length (parses Late.two_parses) = 2
  /\ step Late.props Late.two_parses (ParseSettles 1 (Fulfilled Late.result_B))
     = Some Late.B_settled
  /\ step Late.props Late.B_settled (ParseSettles 0 (Fulfilled Late.result_A))
     = Some Late.A_settled_late
  /\ state (session Late.B_settled) = parsed
  /\ parsedData (session Late.B_settled) = val (ParseResult.data Late.result_B)
  /\ fileName (session Late.B_settled) = val "b.csv"
  /\ length (parses Late.B_settled) = 1
  /\ state (session Late.A_settled_late) = parsed
  /\ parsedData (session Late.A_settled_late)
     = val (ParseResult.data Late.result_A)
  /\ fileName (session Late.A_settled_late) = val "a.csv"
  /\ parsedData (session Late.A_settled_late)
     <> parsedData (session Late.B_settled).
Proof.
  repeat split. discriminate.
Qed.

(** The second call of [onPickCSV] in that run is not one the page can
    make: once the first file is picked the session is "parsing" and the
    file picker is not rendered. *)
Remark second_pick_is_not_offered :
  step Late.props
    (dispatch (onPickCSV Late.props [Late.file_A] []) (mount Late.props))
    (Pick [Late.file_B] [])
  = None.
Proof. reflexivity. Qed.

(** ** The collaborators' events in a reachable world *)

(** Whatever callback the transport calls, in a reachable world it is
    [onSave]'s: outside the "uploading" state the world stays as it is. *)
Lemma progress_outside_uploading
    (props : Props) (w w' : World) (i : nat) (ev : ProgressEvent) :
  reachable props w ->
  state (session w) <> uploading ->
  step props w (Progress i ev) = Some w' ->
  w' = w.
Proof.
  intros Hreach Hst Hstep.
  pose proof (reachable_invariant props w Hreach) as Hinv.
  simpl in Hstep.
  destruct (nth_error (callbacks w) i) as [cb|] eqn:Hcb; [|discriminate].
  injection Hstep as <-.
  apply nth_error_In in Hcb.
  pose proof (proj1 (Forall_forall _ _) (inv_callbacks w Hinv) cb Hcb ev (session w))
    as Hcall.
  unfold onUploadProgress in Hcall. cbn [run] in Hcall.
  apply Phase_eqb_neq in Hst. rewrite Hst in Hcall.
  rewrite (dispatch_completed _ _ (session w) Hcall).
  destruct w; reflexivity.
Qed.

(** A failing upload in a reachable world: the session goes back to
    "parsed" with the message, no upload is left in flight, and no error
    leaves the handler. *)
Lemma upload_failure_is_caught
    (props : Props) (w w' : World) (i : nat) (e : ErrorObject) :
  reachable props w ->
  step props w (UploadSettles i (Rejected (val e))) = Some w' ->
  state (session w) = uploading
  /\ session w' = setState [Kstate parsed; KuploadError (message e)] (session w)
  /\ uploads w' = []
  /\ escaped w' = escaped w.
Proof.
  intros Hreach Hstep.
  pose proof (reachable_invariant props w Hreach) as Hinv.
  simpl in Hstep.
  destruct (nth_error (uploads w) i) as [u|] eqn:Hu; [|discriminate].
  injection Hstep as <-.
  destruct (inv_one_upload w Hinv) as [Hnil|[Hst Hlen]];
    [rewrite Hnil in Hu; destruct i; discriminate|].
  destruct (nth_error_singleton _ _ _ Hlen Hu) as [-> Hsingle].
  pose proof (inv_uploads w Hinv) as Hus.
  rewrite Hsingle in Hus. apply Forall_inv in Hus.
  specialize (Hus (Rejected (val e)) (session w)).
  rewrite onSave_resumed in Hus.
  erewrite dispatch_completed by (cbn; exact Hus).
  rewrite Hsingle. cbn. repeat split; assumption.
Qed.

(** ** Every step is one of the listed transitions *)

Lemma step_transition (props : Props) (w w' : World) (ev : Event) :
  invariant w -> step props w ev = Some w' -> transition props w ev w'.
Proof.
  intros Hinv Hstep.
  destruct ev as [acc rej| | |i r|i r|i pe]; simpl in Hstep.
  - destruct (render props (session w)) as [v|] eqn:Hv; [|discriminate].
    destruct (render_widgets _ _ _ Hv) as (Hfp & _ & _).
    rewrite Hfp in Hstep.
    destruct (Phase_eqb (state (session w)) idle) eqn:Hidle; [|discriminate].
    apply Phase_eqb_eq in Hidle. injection Hstep as <-.
    destruct (none_in_flight w idle Hinv Hidle) as [Hp Hu].
    specialize (Hp ltac:(discriminate)). specialize (Hu ltac:(discriminate)).
    destruct (refuses acc rej) eqn:Hguard.
    + erewrite dispatch_completed
        by (unfold onPickCSV; unfold refuses in Hguard; rewrite Hguard; reflexivity).
      apply pick_refused; assumption.
    + unfold dispatch. rewrite (onPickCSV_accepts _ _ _ _ Hguard).
      rewrite Hp, Hu. apply pick_parsing; assumption.
  - destruct (render props (session w)) as [v|] eqn:Hv; [|discriminate].
    destruct (render_widgets _ _ _ Hv) as (_ & Hpanel & _).
    rewrite Hpanel in Hstep.
    destruct (state (session w)) eqn:Hst; simpl in Hstep; try discriminate.
    injection Hstep as <-.
    destruct (none_in_flight w parsed Hinv Hst) as [Hp Hu].
    specialize (Hp ltac:(discriminate)). specialize (Hu ltac:(discriminate)).
    erewrite dispatch_completed by reflexivity.
    rewrite Hp, Hu. apply delete_parsed. assumption.
  - destruct (render props (session w)) as [v|] eqn:Hv; [|discriminate].
    destruct (render_widgets _ _ _ Hv) as (_ & _ & Hb).
    rewrite Hb in Hstep.
    destruct (Phase_eqb (state (session w)) uploading
              || Phase_eqb (state (session w)) parsed) eqn:Hshown;
      [|discriminate].
    injection Hstep as <-.
    assert (Hphase : state (session w) = parsed \/ state (session w) = uploading).
    { apply orb_true_iff in Hshown.
      destruct Hshown as [H|H]; apply Phase_eqb_eq in H; auto. }
    unfold onClick.
    destruct (canSaveAndContinue props (session w)) eqn:Hcan.
    + assert (Hst : state (session w) = parsed).
      { destruct Hphase as [H|H]; [exact H|].
        unfold canSaveAndContinue in Hcan. rewrite H in Hcan. simpl in Hcan.
        rewrite andb_false_r in Hcan. discriminate. }
      destruct (none_in_flight w parsed Hinv Hst) as [Hp Hu].
      specialize (Hp ltac:(discriminate)). specialize (Hu ltac:(discriminate)).
      unfold dispatch. cbn [run onSave try_catch]. rewrite Hp, Hu.
      apply click_upload; assumption.
    + erewrite dispatch_completed by reflexivity.
      destruct w as [s ps us cs es]. apply click_disabled; assumption.
  - destruct (nth_error (parses w) i) as [p|] eqn:Hp; [|discriminate].
    injection Hstep as <-.
    destruct (inv_one_parse w Hinv) as [Hnil|[Hst Hlen]];
      [rewrite Hnil in Hp; destruct i; discriminate|].
    destruct (nth_error_singleton _ _ _ Hlen Hp) as [-> Hsingle].
    destruct (none_in_flight w parsing Hinv Hst) as [_ Hu].
    specialize (Hu ltac:(discriminate)).
    pose proof (inv_parses w Hinv) as Hps.
    rewrite Hsingle in Hps. apply Forall_inv in Hps.
    specialize (Hps r (session w)).
    rewrite Hsingle. cbn [remove_nth].
    destruct r as [r|e]; cbn [await] in Hps.
    + destruct (onPickCSV_parsed_runs r (session w)) as (s' & Hrun & _).
      rewrite Hrun in Hps.
      erewrite dispatch_completed by (cbn; exact Hps).
      cbn. rewrite Hu.
      replace s' with (fst (run (onPickCSV_parsed r) (session w)))
        by (rewrite Hrun; reflexivity).
      apply parse_fulfilled; assumption.
    + erewrite dispatch_failed by (cbn; exact Hps).
      cbn. rewrite Hu. apply parse_rejected; assumption.
  - destruct (nth_error (uploads w) i) as [u|] eqn:Hu; [|discriminate].
    injection Hstep as <-.
    destruct (inv_one_upload w Hinv) as [Hnil|[Hst Hlen]];
      [rewrite Hnil in Hu; destruct i; discriminate|].
    destruct (nth_error_singleton _ _ _ Hlen Hu) as [-> Hsingle].
    destruct (none_in_flight w uploading Hinv Hst) as [Hp _].
    specialize (Hp ltac:(discriminate)).
    pose proof (inv_uploads w Hinv) as Hus.
    rewrite Hsingle in Hus. apply Forall_inv in Hus.
    specialize (Hus r (session w)). rewrite onSave_resumed in Hus.
    rewrite Hsingle. cbn [remove_nth].
    destruct r as [[]|[| |e]].
    + erewrite dispatch_completed by (cbn; exact Hus).
      cbn. rewrite Hp. apply upload_fulfilled; assumption.
    + erewrite dispatch_failed by (cbn; exact Hus).
      cbn. rewrite Hp. apply upload_rejected_nullish; auto.
    + erewrite dispatch_failed by (cbn; exact Hus).
      cbn. rewrite Hp. apply upload_rejected_nullish; auto.
    + erewrite dispatch_completed by (cbn; exact Hus).
      cbn. rewrite Hp. apply upload_rejected; assumption.
  - destruct (nth_error (callbacks w) i) as [cb|] eqn:Hcb; [|discriminate].
    injection Hstep as <-.
    assert (Hi : i < length (callbacks w))
      by (apply nth_error_Some; congruence).
    apply nth_error_In in Hcb.
    pose proof (proj1 (Forall_forall _ _) (inv_callbacks w Hinv) cb Hcb pe (session w))
      as Hcall.
    destruct (onUploadProgress_frame pe (session w)) as [_ Hdone].
    destruct (run (onUploadProgress pe) (session w)) as [s' o] eqn:Hrun.
    simpl in Hdone. subst o.
    rewrite (dispatch_completed _ _ s' Hcall).
    replace s' with (fst (run (onUploadProgress pe) (session w)))
      by (rewrite Hrun; reflexivity).
    apply progress. exact Hi.
Qed.

(** ** What the session holds in each state *)

Lemma shape_mount (props : Props) : shape props (mount props).
Proof.
  constructor; cbn; try discriminate; auto.
  intros [H|H]; discriminate.
Qed.

Lemma mount_is_idle (props : Props) (w : World) :
  w = mount props -> state (session w) = idle /\ callbacks w = [].
Proof. intros ->. split; reflexivity. Qed.

Lemma canSaveAndContinue_true (props : Props) (s : Session) :
  canSaveAndContinue props s = true ->
  truthy (and_length (errors s)) = false
  /\ state s <> uploading
  /\ lodash.every (requiredColumns props)
       (fun c => truthy (columnIsPresent s (inputName c))) = true.
Proof.
  unfold canSaveAndContinue. intros H.
  apply andb_true_iff in H. destruct H as [H H3].
  apply andb_true_iff in H. destruct H as [H1 H2].
  apply negb_true_iff in H1. apply negb_true_iff, Phase_eqb_neq in H2.
  auto.
Qed.

Lemma no_messages (l : list string) :
  truthy (and_length (val (Messages l))) = false -> l = [].
Proof. destruct l; [reflexivity | discriminate]. Qed.

Lemma every_column_present_fields (cs : list ColumnSpec) (s s' : Session) :
  fields s' = fields s ->
  lodash.every cs (fun c => truthy (columnIsPresent s' (inputName c)))
  = lodash.every cs (fun c => truthy (columnIsPresent s (inputName c))).
Proof.
  intros H. unfold lodash.every, columnIsPresent. rewrite H. reflexivity.
Qed.

Lemma shape_transition (props : Props) (w w' : World) (ev : Event) :
  shape props w -> transition props w ev w' -> shape props w'.
Proof.
  intros [Hidle Hparsing Hparsed Hup Hfail Herrs] Htr.
  assert (Hnofail : state (session w) <> parsed ->
                    truthy (uploadError (session w)) = true -> False).
  { intros Hne Hue. destruct (Hfail Hue) as (Hp & _). congruence. }
  destruct Htr as
    [acc rej Hst Hg | acc rej Hst Hg | Hst | Hst Hcan | Hst Hcan
     | r Hst Hlen | e Hst Hlen | Hst Hlen | e Hst Hlen | e Hst Hlen He
     | i pe Hi].
  - (* a refused selection *)
    constructor; cbn; try (rewrite Hst; intros; discriminate).
    + intros _. apply Hidle, Hst.
    + rewrite Hst. intros [H|H]; discriminate.
    + intros Hue. exfalso. apply Hnofail; [congruence | exact Hue].
  - (* a parse starts *)
    constructor; cbn; try discriminate; auto.
    + intros [H|H]; discriminate.
    + intros Hue. exfalso. apply Hnofail; [congruence | exact Hue].
  - (* delete *)
    constructor; cbn; try discriminate; auto.
    intros [H|H]; discriminate.
  - (* a click on the disabled button *)
    constructor; assumption.
  - (* an upload starts *)
    destruct (Hparsed (or_introl Hst)) as (l & stats & fs & El & Es & Ef & Hd).
    destruct (canSaveAndContinue_true _ _ Hcan) as (Hno & _ & Hcols).
    rewrite El in Hno. apply no_messages in Hno. subst l.
    constructor; cbn; try discriminate.
    + intros _. exists [], stats, fs. auto.
    + intros _. repeat split; [assumption | eexists; reflexivity |].
      exact Hcols.
    + intros m Hm. rewrite El in Hm. discriminate.
  - (* a parse resolves *)
    destruct (Hparsing Hst) as (_ & Hd & _).
    destruct (onPickCSV_parsed_runs r (session w))
      as (s' & Hrun & Hst' & Hue' & Hstats & Hf & He).
    rewrite Hrun. cbn [fst].
    constructor; cbn; try (rewrite Hst'; intros; discriminate).
    + intros _. eexists _, _, _. repeat split; try eassumption.
      intros Hl.
      unfold onPickCSV_parsed in Hrun.
      destruct (ParseResult.errors r) as [|m errs]; [|discriminate Hl].
      cbn in Hrun. injection Hrun as <-. cbn.
      destruct (ParseResult.data r) as [|row rows] eqn:Ed; [discriminate Hl|].
      eexists _, _. repeat split. discriminate.
    + rewrite Hue'. intros Hue. exfalso. apply Hnofail; [congruence | exact Hue].
    + intros m Hm. rewrite He in Hm. discriminate.
  - (* a parse fails *)
    constructor; cbn; try (rewrite Hst; intros; discriminate); auto.
    intros m Hm. destruct (mount_is_idle _ _ (Herrs m Hm)). congruence.
  - (* an upload resolves *)
    constructor; cbn; try discriminate; auto.
    intros [H|H]; discriminate.
  - (* an upload fails *)
    destruct (Hparsed (or_intror Hst)) as (l & stats & fs & El & Es & Ef & Hd).
    destruct (Hup Hst) as (El' & _ & _ & Hcols).
    constructor; cbn; try discriminate.
    + intros _. exists l, stats, fs. auto.
    + intros _. repeat split; assumption.
    + intros m Hm. rewrite El in Hm. discriminate.
  - (* an upload fails with null or undefined *)
    constructor; cbn; try (rewrite Hst; intros; discriminate); auto.
    intros m Hm. destruct (mount_is_idle _ _ (Herrs m Hm)). congruence.
  - (* a progress event *)
    destruct (onUploadProgress_frame pe (session w)) as [Hframe _].
    destruct Hframe as (Fst & Ferr & Fue & Fd & Fs & Ff & Fn).
    assert (Hcols :
      lodash.every (requiredColumns props)
        (fun c => truthy (columnIsPresent
                            (fst (run (onUploadProgress pe) (session w)))
                            (inputName c)))
      = lodash.every (requiredColumns props)
          (fun c => truthy (columnIsPresent (session w) (inputName c)))).
    { apply every_column_present_fields. exact Ff. }
    constructor; unfold with_session; cbn [session];
      rewrite ?Hcols, ?Fst, ?Ferr, ?Fue, ?Fd, ?Fs, ?Ff, ?Fn; auto.
    + intros H. destruct (Hup H) as (H1 & H2 & _ & H4).
      repeat split; try assumption.
      cbn [onUploadProgress run]. rewrite H. cbn. eexists. reflexivity.
    + intros m Hm. destruct (mount_is_idle _ _ (Herrs m Hm)) as [_ Hc].
      rewrite Hc in Hi. inversion Hi.
Qed.

Lemma shape_steps (props : Props) (evs : list Event) (w w' : World) :
  invariant w -> shape props w -> steps props w evs = Some w' ->
  shape props w'.
Proof.
  revert w. induction evs as [|ev evs IH]; intros w Hinv Hshape Hsteps;
    simpl in Hsteps.
  - injection Hsteps as <-. exact Hshape.
  - destruct (step props w ev) as [w1|] eqn:Hstep; [|discriminate].
    apply (IH w1); [| |exact Hsteps].
    + exact (invariant_step props w w1 ev Hinv Hstep).
    + exact (shape_transition props w w1 ev Hshape
               (step_transition props w w1 ev Hinv Hstep)).
Qed.

Lemma reachable_shape (props : Props) (w : World) :
  reachable props w -> shape props w.
Proof.
  intros [evs Hsteps].
  exact (shape_steps props evs (mount props) w (invariant_mount props)
           (shape_mount props) Hsteps).
Qed.

Lemma steps_app (props : Props) (evs evs' : list Event) (w w' : World) :
  steps props w evs = Some w' ->
  steps props w (evs ++ evs') = steps props w' evs'.
Proof.
  revert w. induction evs as [|ev evs IH]; intros w H; simpl in *.
  - injection H as <-. reflexivity.
  - destruct (step props w ev); [|discriminate]. now apply IH.
Qed.

Lemma reachable_step (props : Props) (w w' : World) (ev : Event) :
  reachable props w -> step props w ev = Some w' -> reachable props w'.
Proof.
  intros [evs Hsteps] Hstep. exists (evs ++ [ev]).
  rewrite (steps_app props evs [ev] _ w Hsteps). simpl. now rewrite Hstep.
Qed.

Lemma reachable_transition (props : Props) (w w' : World) (ev : Event) :
  reachable props w -> step props w ev = Some w' -> transition props w ev w'.
Proof.
  intros Hreach. apply step_transition, (reachable_invariant props w Hreach).
Qed.

Lemma transition_next_phase (props : Props) (w w' : World) (ev : Event) :
  transition props w ev w' ->
  next_phase (state (session w)) (state (session w')) = true.
Proof.
  intros Htr.
  destruct Htr as
    [acc rej Hst Hg | acc rej Hst Hg | Hst | Hst Hcan | Hst Hcan
     | r Hst Hlen | e Hst Hlen | Hst Hlen | e Hst Hlen | e Hst Hlen He
     | i pe Hi].
  1-3, 5, 7-10: cbn; rewrite Hst; reflexivity.
  - destruct Hst as [-> | ->]; reflexivity.
  - destruct (onPickCSV_parsed_runs r (session w)) as (s' & Hrun & Hst' & _).
    rewrite Hrun. cbn. rewrite Hst, Hst'. reflexivity.
  - destruct (onUploadProgress_frame pe (session w)) as [(Fst & _) _].
    unfold with_session. cbn [session]. rewrite Fst.
    destruct (state (session w)); reflexivity.
Qed.

(** ** The state machine *)

(** X1. Every event delivered in a reachable world is one of the eleven
    listed transitions, and it moves the session only along idle -> parsing
    -> parsed -> uploading -> (idle or parsed), parsed -> idle, or leaves
    the state as it is. *)
Theorem reachable_steps_follow_the_state_machine
    (props : Props) (w w' : World) (ev : Event) :
  reachable props w ->
  step props w ev = Some w' ->
  transition props w ev w'
  /\ next_phase (state (session w)) (state (session w')) = true.
Proof.
  intros Hreach Hstep.
  pose proof (reachable_transition props w w' ev Hreach Hstep) as Htr.
  split; [exact Htr | exact (transition_next_phase props w w' ev Htr)].
Qed.

(** X2. In a reachable world at most one handler is suspended: never two
    parses, never two uploads, never a parse and an upload together; a
    parse is in flight only in the "parsing" state and an upload only in
    the "uploading" state. *)
Theorem at_most_one_handler_suspended (props : Props) (w : World) :
  reachable props w ->
  length (parses w) + length (uploads w) <= 1
  /\ (parses w <> [] -> state (session w) = parsing)
  /\ (uploads w <> [] -> state (session w) = uploading).
Proof.
  intros Hreach.
  pose proof (reachable_invariant props w Hreach) as Hinv.
  destruct (inv_one_parse w Hinv) as [Hp|[Hp Hlp]];
    destruct (inv_one_upload w Hinv) as [Hu|[Hu Hlu]].
  - rewrite Hp, Hu. simpl. repeat split; [lia | congruence | congruence].
  - rewrite Hp, Hlu. simpl. repeat split; [lia | congruence | auto].
  - rewrite Hu, Hlp. simpl. repeat split; [lia | auto | congruence].
  - congruence.
Qed.

(** X3. What a reachable session holds follows its state. Idle: no upload
    error, dataset, stats or header. Parsing: also no errors. Parsed or
    uploading: an errors array, stats and a header, and, when the array is
    empty, a dataset of at least one row with its file name. Uploading:
    the errors array is empty, there is no upload error, the progress is
    a number and every required column is in the header. *)
Theorem session_data_follows_state (props : Props) (w : World) :
  reachable props w ->
  (state (session w) = idle ->
     uploadError (session w) = null
     /\ parsedData (session w) = null
     /\ validationStats (session w) = null
     /\ fields (session w) = null)
  /\ (state (session w) = parsing ->
        errors (session w) = null
        /\ uploadError (session w) = null
        /\ parsedData (session w) = null
        /\ validationStats (session w) = null
        /\ fields (session w) = null)
  /\ (state (session w) = parsed \/ state (session w) = uploading ->
        exists l stats fs,
          errors (session w) = val (Messages l)
          /\ validationStats (session w) = val stats
          /\ fields (session w) = val fs
          /\ (l = [] ->
              exists d n,
                parsedData (session w) = val d /\ d <> []
                /\ fileName (session w) = val n))
  /\ (state (session w) = uploading ->
        errors (session w) = val (Messages [])
        /\ uploadError (session w) = null
        /\ (exists n, uploadProgress (session w) = val n)
        /\ forall c,
             In c (lodash.collection (columnConfig props)) ->
             truthy (required c) = true ->
             exists fs, fields (session w) = val fs /\ In (inputName c) fs).
Proof.
  intros Hreach.
  pose proof (reachable_invariant props w Hreach) as Hinv.
  pose proof (reachable_shape props w Hreach) as Hshape.
  split; [|split; [|split]].
  - intros Hst. split; [apply (inv_uploadError w Hinv); auto|].
    apply (shape_idle props w Hshape Hst).
  - intros Hst.
    destruct (shape_parsing props w Hshape Hst) as (H1 & H2 & H3 & H4).
    repeat split; try assumption. apply (inv_uploadError w Hinv); auto.
  - apply (shape_parsed props w Hshape).
  - intros Hst.
    destruct (shape_uploading props w Hshape Hst) as (H1 & H2 & H3 & H4).
    repeat split; try assumption.
    intros c Hc Hreq. unfold lodash.every in H4. rewrite forallb_forall in H4.
    specialize (H4 c (proj2 (requiredColumns_spec props c) (conj Hc Hreq))).
    unfold columnIsPresent in H4.
    destruct (fields (session w)) as [| |fs]; try discriminate H4.
    exists fs. split; [reflexivity|].
    destruct (in_dec string_dec (inputName c) fs) as [Hin|Hnin]; [exact Hin|].
    apply (proj2 (indexOf_absent fs (inputName c))) in Hnin.
    rewrite Hnin in H4. discriminate H4.
Qed.

(** ** More on what is rendered *)

Lemma columnIsPresent_true (s : Session) (column : string) :
  truthy (columnIsPresent s column) = true <->
  exists fs, fields s = val fs /\ In column fs.
Proof.
  unfold columnIsPresent. split.
  - destruct (fields s) as [| |fs]; try discriminate. intros H.
    exists fs. split; [reflexivity|].
    destruct (in_dec string_dec column fs) as [Hin|Hnin]; [exact Hin|].
    apply (proj2 (indexOf_absent fs column)) in Hnin.
    rewrite Hnin in H. discriminate H.
  - intros (fs & -> & Hin). cbn.
    destruct (Z.eqb_spec (indexOf fs column) (-1)) as [E|E]; [|reflexivity].
    apply indexOf_absent in E. contradiction.
Qed.

(** X4. The Upload button is enabled exactly when [errors] has no entry
    (no message in the array, or no array at all), the session is not
    uploading, and the header of the parsed file has the [inputName] of
    every column configured with a truthy [required]. *)
Theorem canSaveAndContinue_iff (props : Props) (s : Session) :
  canSaveAndContinue props s = true <->
  (forall l, errors s = val (Messages l) -> l = [])
  /\ (forall m, errors s = val (Message m) -> m = "")
  /\ state s <> uploading
  /\ (forall c,
        In c (lodash.collection (columnConfig props)) ->
        truthy (required c) = true ->
        exists fs, fields s = val fs /\ In (inputName c) fs).
Proof.
  split.
  - intros H. destruct (canSaveAndContinue_true props s H) as (Hno & Hst & Hcols).
    repeat split.
    + intros l El. rewrite El in Hno. now apply no_messages.
    + intros m Em. rewrite Em in Hno. destruct m; [reflexivity | discriminate].
    + exact Hst.
    + intros c Hc Hreq. apply columnIsPresent_true.
      unfold lodash.every in Hcols. rewrite forallb_forall in Hcols.
      apply Hcols, requiredColumns_spec. auto.
  - intros (Hl & Hm & Hst & Hcols). unfold canSaveAndContinue.
    repeat (apply andb_true_iff; split).
    + apply negb_true_iff.
      destruct (errors s) as [| |[m|l]]; try reflexivity.
      * rewrite (Hm m eq_refl). reflexivity.
      * rewrite (Hl l eq_refl). reflexivity.
    + apply negb_true_iff, Phase_eqb_neq, Hst.
    + unfold lodash.every. apply forallb_forall. intros c Hc.
      apply requiredColumns_spec in Hc. destruct Hc as [Hc Hreq].
      apply columnIsPresent_true. auto.
Qed.

Lemma filter_partition_permutation {A} (p : A -> bool) (l : list A) :
  Permutation (filter p l ++ filter (fun x => negb (p x)) l) l.
Proof.
  induction l as [|x l IH]; simpl; [constructor|].
  destruct (p x); simpl.
  - now constructor.
  - apply Permutation_sym, Permutation_cons_app, Permutation_sym, IH.
Qed.

(** X5. The two column lists on the page hold every entry of
    [columnConfig] exactly once between them (the required list those with
    a truthy [required], the optional list the others), and the [present]
    flag of a listed column is [true] when its name is in the parsed
    header, [false] when a header was parsed without it, and [null] while
    no header is held. *)
Theorem column_lists_cover_the_config (props : Props) (s : Session) (v : View) :
  render props s = Some v ->
  Permutation
    (map fst (requiredColumnNames v ++ optionalColumnNames v))
    (map inputName (lodash.collection (columnConfig props)))
  /\ map fst (requiredColumnNames v)
     = map inputName
         (filter (fun c => truthy (required c))
            (lodash.collection (columnConfig props)))
  /\ forall column flag,
       In (column, flag) (requiredColumnNames v ++ optionalColumnNames v) ->
       (flag = val true <-> exists fs, fields s = val fs /\ In column fs)
       /\ (flag = val false <-> exists fs, fields s = val fs /\ ~ In column fs)
       /\ (flag = null <-> fields s = null \/ fields s = undefined)
       /\ flag <> undefined.
Proof.
  unfold render. destruct (render_errorMessages s); [|discriminate].
  intros H. injection H as <-. cbn [requiredColumnNames optionalColumnNames].
  unfold present_flags, requiredColumns, optionalColumns, lodash.partition.
  cbn [fst snd].
  split; [|split].
  - rewrite <- map_app, map_map. cbn [fst].
    apply Permutation_map, filter_partition_permutation.
  - rewrite map_map. reflexivity.
  - intros column flag Hin. rewrite <- map_app in Hin.
    apply in_map_iff in Hin. destruct Hin as (c & Hc & _).
    injection Hc as <- <-.
    unfold columnIsPresent.
    destruct (fields s) as [| |fs].
    + repeat split; try discriminate; auto.
      * intros (fs & H & _). discriminate.
      * intros (fs & H & _). discriminate.
    + repeat split; try discriminate; auto.
      * intros (fs & H & _). discriminate.
      * intros (fs & H & _). discriminate.
    + destruct (Z.eqb_spec (indexOf fs (inputName c)) (-1)) as [E|E]; cbn.
      * apply indexOf_absent in E.
        repeat split; try discriminate.
        -- intros (fs' & H & Hin). injection H as <-. contradiction.
        -- intros _. exists fs. auto.
        -- intros [H|H]; discriminate.
      * assert (Hin : In (inputName c) fs).
        { destruct (in_dec string_dec (inputName c) fs) as [Hin|Hnin];
            [exact Hin|].
          apply indexOf_absent in Hnin. contradiction. }
        repeat split; try discriminate.
        -- intros _. exists fs. auto.
        -- intros (fs' & H & Hnin). injection H as <-. contradiction.
        -- intros [H|H]; discriminate.
Qed.

Lemma render_messages (props : Props) (s : Session) (l : list string) :
  errors s = val (Messages l) ->
  exists v,
    render props s = Some v
    /\ errorMessages v
       = match uploadError s with
         | val m => if truthy m then [m] else firstn 9 l
         | _ => firstn 9 l
         end
    /\ moreRowsWithErrors v
       = if 9 <? length l then Some (Int (Z.of_nat (length l - 9))) else None.
Proof.
  intros H.
  assert (Hv : validationErrors s = val (Messages (firstn 9 l))).
  { unfold validationErrors. rewrite H. reflexivity. }
  assert (Hrest : rest s = Int (Z.of_nat (length l - length (firstn 9 l)))).
  { unfold rest, allErrorLength, visibleErrors. rewrite Hv, H.
    unfold and_length, truthy, Truthy_ErrorsValue, length_of, minus.
    f_equal. rewrite length_firstn. lia. }
  unfold render, render_errorMessages, render_errors. rewrite Hv, Hrest.
  assert (Hmore :
    (if truthy (Int (Z.of_nat (length l - length (firstn 9 l))))
     then Some (Int (Z.of_nat (length l - length (firstn 9 l))))
     else @None number)
    = if 9 <? length l then Some (Int (Z.of_nat (length l - 9))) else None).
  { rewrite firstn_9_length. unfold truthy, Truthy_number.
    destruct (Nat.ltb_spec 9 (length l)).
    - destruct (Z.eqb_spec (Z.of_nat (length l - 9)) 0); [lia | reflexivity].
    - replace (length l - length l) with 0 by lia. reflexivity. }
  destruct (uploadError s) as [| |m];
    try (eexists; split; [reflexivity|]; split; [reflexivity | exact Hmore]).
  destruct (truthy m);
    eexists; (split; [reflexivity|]); (split; [reflexivity | exact Hmore]).
Qed.

Lemma render_null (props : Props) (s : Session) :
  errors s = null ->
  exists v,
    render props s = Some v
    /\ errorMessages v
       = match uploadError s with
         | val m => if truthy m then [m] else []
         | _ => []
         end
    /\ moreRowsWithErrors v = None.
Proof.
  intros H.
  unfold render, render_errorMessages, render_errors, rest, allErrorLength,
    visibleErrors, validationErrors.
  rewrite H. cbn.
  destruct (uploadError s) as [| |m];
    try (eexists; split; [reflexivity|]; split; reflexivity).
  destruct (truthy m); eexists; (split; [reflexivity|]); split; reflexivity.
Qed.

(** X6. In a reachable world [render] raises an error exactly in the
    component as mounted with a non-empty string as [initialError]: the
    string is put into [errors], and [render] calls [map] on its first 9
    characters. Every other reachable session renders. *)
Theorem render_fails_only_on_initialError_string (props : Props) (w : World) :
  reachable props w ->
  (render props (session w) = None <->
   w = mount props /\ exists m, initialError props = val m /\ m <> "").
Proof.
  intros Hreach. pose proof (reachable_shape props w Hreach) as Hshape.
  split.
  - intros Hnone.
    destruct (errors (session w)) as [| |[m|l]] eqn:He.
    + exfalso. unfold render, render_errorMessages, render_errors,
        validationErrors in Hnone. rewrite He in Hnone. cbn in Hnone.
      destruct (uploadError (session w)) as [| |u]; try discriminate.
      destruct (truthy u); discriminate.
    + destruct (render_null props (session w) He) as (v & Hv & _). congruence.
    + pose proof (shape_errors props w Hshape m He) as Hw. split; [exact Hw|].
      subst w.
      unfold render, render_errorMessages, render_errors, validationErrors
        in Hnone.
      cbn in He, Hnone.
      destruct (initialError props) as [| |m0]; try discriminate.
      injection He as He. subst m0. exists m. split; [reflexivity|].
      intros Hm. subst m. cbn in Hnone. discriminate.
    + destruct (render_messages props (session w) l He) as (v & Hv & _).
      congruence.
  - intros (-> & m & Hm & Hne). cbn.
    unfold render, render_errorMessages, render_errors, validationErrors.
    cbn. rewrite Hm. destruct m as [|c m]; [congruence|]. reflexivity.
Qed.

(** ** Picking a file, and what a parse leaves *)

(** X7. A refused selection in a reachable world changes nothing but
    [errors]: the session stays idle with nothing in flight, and the page
    shows the one message "Please upload a single CSV file", no overflow
    line, and the file picker again. *)
Theorem refused_selection_shows_one_message
    (props : Props) (w w' : World) (acceptedFiles rejectedFiles : list File) :
  reachable props w ->
  step props w (Pick acceptedFiles rejectedFiles) = Some w' ->
  refuses acceptedFiles rejectedFiles = true ->
  w' = with_session w
         (setState [Kerrors (val (Messages ["Please upload a single CSV file"]))]
            (session w))
  /\ state (session w') = idle
  /\ parses w' = []
  /\ uploads w' = []
  /\ exists v,
       render props (session w') = Some v
       /\ errorMessages v = ["Please upload a single CSV file"]
       /\ moreRowsWithErrors v = None
       /\ filePicker v = true
       /\ uploadButton v = None.
Proof.
  intros Hreach Hstep Hg.
  pose proof (reachable_invariant props w Hreach) as Hinv.
  pose proof (reachable_transition props w w' _ Hreach Hstep) as Htr.
  inversion Htr as
    [acc rej Hst Hg' | acc rej Hst Hg' | | | | | | | | | ]; subst;
    [|congruence].
  destruct (none_in_flight w idle Hinv Hst) as [Hp Hu].
  specialize (Hp ltac:(discriminate)). specialize (Hu ltac:(discriminate)).
  pose proof (inv_uploadError w Hinv (or_introl Hst)) as Hue.
  split; [reflexivity|]. cbn. repeat (split; [assumption|]).
  destruct (render_messages props
              (setState [Kerrors (val (Messages ["Please upload a single CSV file"]))]
                 (session w))
              ["Please upload a single CSV file"] eq_refl)
    as (v & Hv & Hmsg & Hmore).
  exists v. split; [exact Hv|].
  cbn in Hmsg. rewrite Hue in Hmsg.
  destruct (render_widgets _ _ _ Hv) as (Hfp & _ & Hb).
  cbn in Hfp, Hb. rewrite Hst in Hfp, Hb.
  repeat split; assumption.
Qed.

(** X8. When the parse resolves with errors in a reachable world, the
    session is "parsed" with exactly those errors, it holds no dataset,
    and the page shows the first 9 of them with the Upload button
    disabled and the delete action offered. *)
Theorem parse_errors_block_the_upload
    (props : Props) (w w' : World) (i : nat) (r : ParseResult.t) :
  reachable props w ->
  step props w (ParseSettles i (Fulfilled r)) = Some w' ->
  ParseResult.errors r <> [] ->
  state (session w') = parsed
  /\ errors (session w') = val (Messages (ParseResult.errors r))
  /\ parsedData (session w') = null
  /\ canSaveAndContinue props (session w') = false
  /\ exists v,
       render props (session w') = Some v
       /\ errorMessages v = firstn 9 (ParseResult.errors r)
       /\ uploadButton v = Some true
       /\ validationStatsPanel v
          = Some (val (ParseResult.validationStats r), true)
       /\ filePicker v = false.
Proof.
  intros Hreach Hstep Herrs.
  pose proof (reachable_invariant props w Hreach) as Hinv.
  pose proof (reachable_shape props w Hreach) as Hshape.
  pose proof (reachable_transition props w w' _ Hreach Hstep) as Htr.
  inversion Htr as [ | | | | | r' Hst Hlen | | | | | ]; subst.
  destruct (shape_parsing props w Hshape Hst) as (_ & Hd & _).
  pose proof (inv_uploadError w Hinv (or_intror Hst)) as Hue.
  cbn [session]. rewrite (onPickCSV_parsed_with_errors r (session w) Herrs).
  cbn [fst].
  assert (Hcan : canSaveAndContinue props
                   (setState [Kstate parsed;
                              KvalidationStats (val (ParseResult.validationStats r));
                              Kerrors (val (Messages (ParseResult.errors r)));
                              Kfields (val (ParseResult.fields r))] (session w))
                 = false).
  { unfold canSaveAndContinue. cbn.
    destruct (ParseResult.errors r); [congruence | reflexivity]. }
  split; [reflexivity|]. split; [reflexivity|]. split; [exact Hd|].
  split; [exact Hcan|].
  destruct (render_messages props _ _
              (eq_refl : errors (setState [Kstate parsed;
                              KvalidationStats (val (ParseResult.validationStats r));
                              Kerrors (val (Messages (ParseResult.errors r)));
                              Kfields (val (ParseResult.fields r))] (session w))
                         = val (Messages (ParseResult.errors r))))
    as (v & Hv & Hmsg & _).
  exists v. split; [exact Hv|].
  cbn in Hmsg. rewrite Hue in Hmsg.
  destruct (render_widgets _ _ _ Hv) as (Hfp & Hpanel & Hb).
  rewrite Hcan in Hb. cbn in Hfp, Hpanel, Hb.
  repeat split; assumption.
Qed.

(** ** Deleting, uploading and trying again *)

(** X9. The delete action is offered in the "parsed" state only, and in a
    reachable world it leaves an idle session without errors, upload
    error, dataset, stats or header and with nothing in flight; the page
    then shows no message and the file picker. [fileName] is not among the
    keys it clears. *)
Theorem delete_returns_to_the_file_picker (props : Props) (w w' : World) :
  reachable props w ->
  step props w Delete = Some w' ->
  state (session w) = parsed
  /\ state (session w') = idle
  /\ errors (session w') = null
  /\ uploadError (session w') = null
  /\ parsedData (session w') = null
  /\ validationStats (session w') = null
  /\ fields (session w') = null
  /\ fileName (session w') = fileName (session w)
  /\ parses w' = []
  /\ uploads w' = []
  /\ exists v,
       render props (session w') = Some v
       /\ errorMessages v = []
       /\ moreRowsWithErrors v = None
       /\ filePicker v = true
       /\ validationStatsPanel v = None
       /\ uploadButton v = None.
Proof.
  intros Hreach Hstep.
  pose proof (reachable_transition props w w' _ Hreach Hstep) as Htr.
  inversion Htr as [ | | Hst | | | | | | | | ]; subst.
  cbn. repeat (split; [first [assumption | reflexivity]|]).
  destruct (render_null props (fst (run onDelete (session w))) eq_refl)
    as (v & Hv & Hmsg & Hmore).
  exists v. split; [exact Hv|].
  destruct (render_widgets _ _ _ Hv) as (Hfp & Hpanel & Hb).
  cbn in Hmsg, Hfp, Hpanel, Hb. repeat split; assumption.
Qed.

Lemma click_starts_upload (props : Props) (w : World) (v : View) :
  render props (session w) = Some v ->
  state (session w) = parsed ->
  canSaveAndContinue props (session w) = true ->
  step props w Click
  = Some {| session := setState [Kstate uploading; KuploadError null;
                                 KuploadProgress (val (Int 0))] (session w);
            parses := parses w;
            uploads := uploads w ++ [upload_of (session w)];
            callbacks := callbacks w ++ [onUploadProgress];
            escaped := escaped w |}.
Proof.
  intros Hv Hst Hcan. cbn [step]. rewrite Hv.
  destruct (render_widgets _ _ _ Hv) as (_ & _ & Hb).
  rewrite Hst in Hb. cbn in Hb. rewrite Hb.
  unfold onClick. rewrite Hcan. reflexivity.
Qed.

(** X10. After a failed upload, and only then, a reachable session holds
    a truthy [uploadError]: it is "parsed" with an empty errors array, the
    page shows that one message and no overflow line, the Upload button
    is enabled and the delete action is offered. *)
Theorem failed_upload_page (props : Props) (w : World) :
  reachable props w ->
  truthy (uploadError (session w)) = true ->
  state (session w) = parsed
  /\ errors (session w) = val (Messages [])
  /\ canSaveAndContinue props (session w) = true
  /\ exists m v,
       uploadError (session w) = val m
       /\ render props (session w) = Some v
       /\ errorMessages v = [m]
       /\ moreRowsWithErrors v = None
       /\ uploadButton v = Some false
       /\ validationStatsPanel v = Some (validationStats (session w), true).
Proof.
  intros Hreach Hue.
  pose proof (reachable_shape props w Hreach) as Hshape.
  destruct (shape_failed props w Hshape Hue) as (Hst & He & Hcols).
  assert (Hcan : canSaveAndContinue props (session w) = true).
  { unfold canSaveAndContinue. rewrite He, Hst, Hcols. reflexivity. }
  repeat (split; [assumption|]).
  destruct (uploadError (session w)) as [| |m] eqn:Em; try discriminate Hue.
  destruct (render_messages props (session w) [] He) as (v & Hv & Hmsg & Hmore).
  exists m, v. split; [reflexivity|]. split; [exact Hv|].
  rewrite Em in Hmsg. cbn in Hue. rewrite Hue in Hmsg.
  destruct (render_widgets _ _ _ Hv) as (_ & Hpanel & Hb).
  rewrite Hst in Hpanel, Hb. rewrite Hcan in Hb.
  repeat split; assumption.
Qed.

(** X11. An upload that failed with an error object can be tried again at
    once: in the world the failure leaves, a click on Upload is accepted,
    clears [uploadError], resets the progress to 0 and hands [onUpload]
    the same dataset and file name as the failed attempt had. *)
Theorem failed_upload_can_be_retried
    (props : Props) (w w1 : World) (i : nat) (e : ErrorObject) :
  reachable props w ->
  step props w (UploadSettles i (Rejected (val e))) = Some w1 ->
  exists w2,
    step props w1 Click = Some w2
    /\ state (session w2) = uploading
    /\ uploadError (session w2) = null
    /\ uploadProgress (session w2) = val (Int 0)
    /\ uploads w2 = [upload_of (session w1)]
    /\ Request.data (upload_request (upload_of (session w1)))
       = parsedData (session w)
    /\ Request.fileName (upload_request (upload_of (session w1)))
       = fileName (session w).
Proof.
  intros Hreach Hstep.
  pose proof (reachable_shape props w Hreach) as Hshape.
  pose proof (reachable_transition props w w1 _ Hreach Hstep) as Htr.
  inversion Htr as [ | | | | | | | | e' Hst Hlen | e' Hst Hlen He | ]; subst;
    [|destruct He; discriminate].
  destruct (shape_uploading props w Hshape Hst) as (He & _ & _ & Hcols).
  set (s1 := setState [Kstate parsed; KuploadError (message e)] (session w)).
  assert (He1 : errors s1 = val (Messages [])) by exact He.
  destruct (render_messages props s1 [] He1) as (v & Hv & _).
  assert (Hcan : canSaveAndContinue props s1 = true).
  { unfold canSaveAndContinue. rewrite He1.
    rewrite (every_column_present_fields _ (session w) s1 eq_refl), Hcols.
    reflexivity. }
  eexists. split.
  - apply (click_starts_upload props _ v); [exact Hv | reflexivity | exact Hcan].
  - cbn. repeat split.
Qed.

(** X12. [onUpload] is only ever called with a dataset of at least one row
    and with a file name: whenever a click in a reachable world starts an
    upload, the request carries the session's [parsedData], which is an
    array that is not empty, and its [fileName], which is a string. *)
Theorem upload_request_has_rows_and_file_name (props : Props) (w w' : World) :
  reachable props w ->
  step props w Click = Some w' ->
  canSaveAndContinue props (session w) = true ->
  exists d n,
    uploads w' = [upload_of (session w)]
    /\ Request.data (upload_request (upload_of (session w))) = val d
    /\ d <> []
    /\ Request.fileName (upload_request (upload_of (session w))) = val n
    /\ state (session w') = uploading.
Proof.
  intros Hreach Hstep Hcan.
  pose proof (reachable_shape props w Hreach) as Hshape.
  pose proof (reachable_transition props w w' _ Hreach Hstep) as Htr.
  inversion Htr as [ | | | Hst Hcan' w0 | Hst Hcan' | | | | | | ]; subst;
    [congruence|].
  destruct (shape_parsed props w Hshape (or_introl Hst))
    as (l & stats & fs & El & _ & _ & Hd).
  destruct (canSaveAndContinue_true _ _ Hcan) as (Hno & _).
  rewrite El in Hno. apply no_messages in Hno.
  destruct (Hd Hno) as (d & n & Ed & Hne & En).
  exists d, n. cbn. repeat split; assumption.
Qed.

(** X13. A parse followed by an accepted click hands [onUpload] exactly
    what the parse returned: the request's data is the result's [data]
    and its file name the result's [fileName]; the click is accepted only
    if the result had no errors and at least one row. *)
Theorem upload_sends_what_was_parsed
    (props : Props) (w w1 w2 : World) (i : nat) (r : ParseResult.t) :
  reachable props w ->
  step props w (ParseSettles i (Fulfilled r)) = Some w1 ->
  step props w1 Click = Some w2 ->
  canSaveAndContinue props (session w1) = true ->
  ParseResult.errors r = []
  /\ ParseResult.data r <> []
  /\ exists u,
       uploads w2 = [u]
       /\ Request.data (upload_request u) = val (ParseResult.data r)
       /\ Request.fileName (upload_request u) = val (ParseResult.fileName r).
Proof.
  intros Hreach Hstep1 Hstep2 Hcan.
  pose proof (reachable_transition props w w1 _ Hreach Hstep1) as Htr1.
  pose proof (reachable_step props w w1 _ Hreach Hstep1) as Hreach1.
  pose proof (reachable_transition props w1 w2 _ Hreach1 Hstep2) as Htr2.
  inversion Htr2 as [ | | | Hst Hcan' w0 | Hst Hcan' | | | | | | ]; subst;
    [congruence|].
  inversion Htr1 as [ | | | | | r' Hst' Hlen | | | | | ]; subst.
  cbn [session] in *.
  destruct (canSaveAndContinue_true _ _ Hcan) as (Hno & _).
  unfold onPickCSV_parsed in *.
  destruct (ParseResult.errors r) as [|m errs]; [|discriminate Hno].
  destruct (ParseResult.data r) as [|row rows] eqn:Ed; [discriminate Hno|].
  split; [reflexivity|]. split; [discriminate|].
  eexists. split; [reflexivity|]. cbn. split; reflexivity.
Qed.

(** ** A parse that fails *)

Lemma parsing_without_parse_is_stuck
    (props : Props) (w w' : World) (ev : Event) :
  invariant w ->
  state (session w) = parsing ->
  parses w = [] ->
  step props w ev = Some w' ->
  session w' = session w /\ parses w' = [] /\ escaped w' = escaped w.
Proof.
  intros Hinv Hst Hp Hstep.
  pose proof (step_transition props w w' ev Hinv Hstep) as Htr.
  destruct Htr as
    [acc rej Hst' Hg | acc rej Hst' Hg | Hst' | Hst' Hcan | Hst' Hcan
     | r Hst' Hlen | e Hst' Hlen | Hst' Hlen | e Hst' Hlen | e Hst' Hlen He
     | i pe Hi]; try congruence.
  - destruct Hst'; congruence.
  - rewrite Hp in Hlen. discriminate.
  - rewrite Hp in Hlen. discriminate.
  - unfold with_session. cbn [session parses escaped].
    unfold onUploadProgress. cbn [run]. rewrite Hst. cbn. auto.
Qed.

Lemma parsing_without_parse_stays_stuck
    (props : Props) (evs : list Event) (w w' : World) :
  invariant w ->
  state (session w) = parsing ->
  parses w = [] ->
  steps props w evs = Some w' ->
  session w' = session w /\ escaped w' = escaped w.
Proof.
  revert w. induction evs as [|ev evs IH]; intros w Hinv Hst Hp Hsteps;
    simpl in Hsteps.
  - injection Hsteps as <-. auto.
  - destruct (step props w ev) as [w1|] eqn:Hstep; [|discriminate].
    destruct (parsing_without_parse_is_stuck props w w1 ev Hinv Hst Hp Hstep)
      as (Hs1 & Hp1 & He1).
    rewrite <- Hs1, <- He1. apply IH.
    + exact (invariant_step props w w1 ev Hinv Hstep).
    + rewrite Hs1. exact Hst.
    + exact Hp1.
    + exact Hsteps.
Qed.

(** X14. [onPickCSV] has no handler for a parse that fails. When
    [parseCSV] rejects in a reachable world, the error leaves the handler
    and the session stays exactly as it was, in the "parsing" state, where
    the page offers no file picker, no delete action and no Upload
    button; whatever events follow, the session never changes again. *)
Theorem rejected_parse_leaves_the_session_stuck
    (props : Props) (w w' : World) (i : nat) (e : Thrown) :
  reachable props w ->
  step props w (ParseSettles i (Rejected e)) = Some w' ->
  session w' = session w
  /\ state (session w') = parsing
  /\ escaped w' = escaped w ++ [e]
  /\ (exists v,
        render props (session w') = Some v
        /\ filePicker v = false
        /\ validationStatsPanel v = None
        /\ uploadButton v = None)
  /\ forall evs w'',
       steps props w' evs = Some w'' ->
       session w'' = session w' /\ escaped w'' = escaped w'.
Proof.
  intros Hreach Hstep.
  pose proof (reachable_invariant props w Hreach) as Hinv.
  pose proof (reachable_shape props w Hreach) as Hshape.
  pose proof (invariant_step props w w' _ Hinv Hstep) as Hinv'.
  pose proof (reachable_transition props w w' _ Hreach Hstep) as Htr.
  inversion Htr as [ | | | | | | e' Hst Hlen | | | | ]; subst.
  cbn [session escaped] in *.
  split; [reflexivity|]. split; [exact Hst|]. split; [reflexivity|].
  split.
  - destruct (shape_parsing props w Hshape Hst) as (He & _).
    destruct (render_null props (session w) He) as (v & Hv & _).
    exists v. split; [exact Hv|].
    destruct (render_widgets _ _ _ Hv) as (Hfp & Hpanel & Hb).
    rewrite Hst in Hfp, Hpanel, Hb. auto.
  - intros evs w'' Hsteps.
    apply (parsing_without_parse_stays_stuck props evs _ w'' Hinv' Hst eq_refl
             Hsteps).
Qed.

(** ** Progress events during an upload *)

Lemma render_percent (props : Props) (s : Session) (v : View) :
  render props s = Some v ->
  uploadingPercent v
  = if Phase_eqb (state s) uploading
    then Some (match uploadProgress s with
               | val n => times100 n
               | null => Int 0
               | undefined => NaN
               end)
    else None.
Proof.
  unfold render. destruct (render_errorMessages s); [|discriminate].
  intros H. injection H as <-. cbn.
  destruct (state s); reflexivity.
Qed.

Lemma progress_while_uploading
    (props : Props) (w w' : World) (i : nat) (ev : ProgressEvent) :
  reachable props w ->
  state (session w) = uploading ->
  step props w (Progress i ev) = Some w' ->
  w' = with_session w
         (setState [KuploadProgress
                      (val (Math_round_quotient (loaded ev) (total ev)))]
            (session w))
  /\ exists v,
       render props (session w') = Some v
       /\ uploadingPercent v
          = Some (times100 (Math_round_quotient (loaded ev) (total ev))).
Proof.
  intros Hreach Hst Hstep.
  pose proof (reachable_shape props w Hreach) as Hshape.
  pose proof (reachable_transition props w w' _ Hreach Hstep) as Htr.
  inversion Htr as [ | | | | | | | | | | i' pe Hi ]; subst.
  rewrite (onUploadProgress_uploading ev (session w) Hst). cbn [fst].
  split; [reflexivity|].
  destruct (shape_uploading props w Hshape Hst) as (He & _).
  destruct (render_messages props
              (setState [KuploadProgress
                           (val (Math_round_quotient (loaded ev) (total ev)))]
                 (session w)) [] He) as (v & Hv & _).
  exists v. split; [exact Hv|].
  rewrite (render_percent _ _ _ Hv). cbn. rewrite Hst. reflexivity.
Qed.

(** X15. While an upload runs in a reachable world, a progress event
    with [0 < total] and [loaded <= total] stores 0 when [loaded] is less
    than half of [total] and 1 otherwise, so the label reads 0 or 100
    percent and nothing in between. *)
Theorem progress_label_is_0_or_100
    (props : Props) (w w' : World) (i : nat) (ev : ProgressEvent) :
  reachable props w ->
  state (session w) = uploading ->
  step props w (Progress i ev) = Some w' ->
  (0 < total ev)%N ->
  (loaded ev <= total ev)%N ->
  uploadProgress (session w')
  = val (Int (if (2 * loaded ev <? total ev)%N then 0 else 1))
  /\ exists v,
       render props (session w') = Some v
       /\ uploadingPercent v
          = Some (Int (if (2 * loaded ev <? total ev)%N then 0 else 100)).
Proof.
  intros Hreach Hst Hstep Htotal Hloaded.
  destruct (progress_while_uploading props w w' i ev Hreach Hst Hstep)
    as (-> & v & Hv & Hpercent).
  rewrite (Math_round_quotient_0_or_1 _ _ Htotal Hloaded) in *.
  split; [reflexivity|].
  exists v. split; [exact Hv|]. rewrite Hpercent.
  destruct (2 * loaded ev <? total ev)%N; reflexivity.
Qed.

(** X16. A progress event whose [total] is 0 (a length that cannot be
    computed) makes the division yield no number: while an upload runs in
    a reachable world, the stored progress and the label become NaN when
    [loaded] is 0 too, and Infinity otherwise. *)
Theorem progress_with_total_zero
    (props : Props) (w w' : World) (i : nat) (ev : ProgressEvent) :
  reachable props w ->
  state (session w) = uploading ->
  step props w (Progress i ev) = Some w' ->
  total ev = 0%N ->
  uploadProgress (session w')
  = val (if (loaded ev =? 0)%N then NaN else PosInfinity)
  /\ exists v,
       render props (session w') = Some v
       /\ uploadingPercent v
          = Some (if (loaded ev =? 0)%N then NaN else PosInfinity).
Proof.
  intros Hreach Hst Hstep Htotal.
  destruct (progress_while_uploading props w w' i ev Hreach Hst Hstep)
    as (-> & v & Hv & Hpercent).
  unfold Math_round_quotient in *. rewrite Htotal in *. cbn in *.
  split; [reflexivity|].
  exists v. split; [exact Hv|]. rewrite Hpercent.
  destruct (loaded ev =? 0)%N; reflexivity.
Qed.

(** X17. The guard of the progress callback looks at the state only, and
    every callback the transport was ever given is the same function: in
    a reachable world that is uploading, an event (with [loaded <= total]
    or [total = 0]) through any of them, also one handed over for an
    earlier upload that has settled, sets the progress of the upload that
    runs now. *)
Theorem any_callback_sets_the_progress
    (props : Props) (w : World) (i : nat) (ev : ProgressEvent) :
  reachable props w ->
  state (session w) = uploading ->
  i < length (callbacks w) ->
  (total ev = 0 \/ loaded ev <= total ev)%N ->
  step props w (Progress i ev)
  = Some (with_session w
            (setState [KuploadProgress
                         (val (Math_round_quotient (loaded ev) (total ev)))]
               (session w))).
Proof.
  intros Hreach Hst Hi _.
  destruct (nth_error (callbacks w) i) as [cb|] eqn:Hcb.
  - assert (Hstep : exists w', step props w (Progress i ev) = Some w').
    { cbn [step]. rewrite Hcb. eexists. reflexivity. }
    destruct Hstep as (w' & Hstep). rewrite Hstep. f_equal.
    apply (progress_while_uploading props w w' i ev Hreach Hst Hstep).
  - apply nth_error_None in Hcb. lia.
Qed.

(** ** The properties on the example runs *)

Lemma after_reachable (evs : list Event) :
  steps History.props (mount History.props) evs = Some (History.after evs) ->
  reachable History.props (History.after evs).
Proof. intros H. exists evs. exact H. Qed.

Lemma reachable_steps_follow_the_state_machine_witness :
  transition History.props (History.after History.picked)
    (ParseSettles 0 (Fulfilled Example.one_row)) (History.after Tour.parsed)
  /\ next_phase (state (session (History.after History.picked)))
       (state (session (History.after Tour.parsed))) = true.
Proof.
  apply reachable_steps_follow_the_state_machine.
  - apply after_reachable. by_computation.
  - by_computation.
Defined.

Lemma at_most_one_handler_suspended_witness :
  length (parses (History.after Tour.uploading))
  + length (uploads (History.after Tour.uploading)) <= 1
  /\ (parses (History.after Tour.uploading) <> [] ->
      state (session (History.after Tour.uploading)) = parsing)
  /\ (uploads (History.after Tour.uploading) <> [] ->
      state (session (History.after Tour.uploading)) = uploading).
Proof.
  apply (at_most_one_handler_suspended History.props).
  apply after_reachable. by_computation.
Defined.

Lemma session_data_follows_state_witness :
  exists l stats fs,
    errors (session (History.after Tour.parsed)) = val (Messages l)
    /\ validationStats (session (History.after Tour.parsed)) = val stats
    /\ fields (session (History.after Tour.parsed)) = val fs
    /\ (l = [] ->
        exists d n,
          parsedData (session (History.after Tour.parsed)) = val d /\ d <> []
          /\ fileName (session (History.after Tour.parsed)) = val n).
Proof.
  apply (session_data_follows_state History.props (History.after Tour.parsed)).
  - apply after_reachable. by_computation.
  - left. by_computation.
Defined.

Lemma column_lists_cover_the_config_witness :
  exists v,
    render History.props (session (History.after Tour.parsed)) = Some v
    /\ Permutation
         (map fst (requiredColumnNames v ++ optionalColumnNames v))
         (map inputName (lodash.collection (columnConfig History.props))).
Proof.
  eexists. split; [by_computation|].
  apply (column_lists_cover_the_config History.props
           (session (History.after Tour.parsed))).
  by_computation.
Defined.

Lemma render_fails_only_on_initialError_string_witness :
  render Tour.props_with_initialError
    (session (mount Tour.props_with_initialError)) = None
  <-> mount Tour.props_with_initialError = mount Tour.props_with_initialError
      /\ exists m, initialError Tour.props_with_initialError = val m /\ m <> "".
Proof.
  apply render_fails_only_on_initialError_string.
  exists []. reflexivity.
Defined.

Lemma refused_selection_shows_one_message_witness :
  exists v,
    render History.props (session (History.after Tour.wrong_type)) = Some v
    /\ errorMessages v = ["Please upload a single CSV file"]
    /\ moreRowsWithErrors v = None
    /\ filePicker v = true
    /\ uploadButton v = None.
Proof.
  apply (refused_selection_shows_one_message History.props
           (mount History.props) (History.after Tour.wrong_type)
           [] [History.file]).
  - exists []. reflexivity.
  - by_computation.
  - reflexivity.
Defined.

Lemma parse_errors_block_the_upload_witness :
  state (session (History.after Tour.parsed_with_errors)) = parsed
  /\ errors (session (History.after Tour.parsed_with_errors))
     = val (Messages (ParseResult.errors Tour.bad_rows))
  /\ parsedData (session (History.after Tour.parsed_with_errors)) = null
  /\ canSaveAndContinue History.props
       (session (History.after Tour.parsed_with_errors)) = false
  /\ exists v,
       render History.props (session (History.after Tour.parsed_with_errors))
       = Some v
       /\ errorMessages v = firstn 9 (ParseResult.errors Tour.bad_rows)
       /\ uploadButton v = Some true
       /\ validationStatsPanel v
          = Some (val (ParseResult.validationStats Tour.bad_rows), true)
       /\ filePicker v = false.
Proof.
  apply (parse_errors_block_the_upload History.props
           (History.after History.picked) _ 0).
  - apply after_reachable. by_computation.
  - by_computation.
  - discriminate.
Defined.

Lemma delete_returns_to_the_file_picker_witness :
  state (session (History.after Tour.parsed)) = parsed
  /\ state (session (History.after (Tour.parsed ++ [Delete]))) = idle.
Proof.
  destruct (delete_returns_to_the_file_picker History.props
              (History.after Tour.parsed)
              (History.after (Tour.parsed ++ [Delete])))
    as (H1 & H2 & _).
  - apply after_reachable. by_computation.
  - by_computation.
  - split; assumption.
Defined.

Lemma failed_upload_page_witness :
  state (session (History.after Tour.failed)) = parsed
  /\ errors (session (History.after Tour.failed)) = val (Messages [])
  /\ canSaveAndContinue History.props (session (History.after Tour.failed))
     = true
  /\ exists m v,
       uploadError (session (History.after Tour.failed)) = val m
       /\ render History.props (session (History.after Tour.failed)) = Some v
       /\ errorMessages v = [m]
       /\ moreRowsWithErrors v = None
       /\ uploadButton v = Some false
       /\ validationStatsPanel v
          = Some (validationStats (session (History.after Tour.failed)), true).
Proof.
  apply failed_upload_page.
  - apply after_reachable. by_computation.
  - by_computation.
Defined.

Lemma failed_upload_can_be_retried_witness :
  exists w2,
    step History.props (History.after Tour.failed) Click = Some w2
    /\ state (session w2) = uploading
    /\ uploadError (session w2) = null
    /\ uploadProgress (session w2) = val (Int 0)
    /\ uploads w2 = [upload_of (session (History.after Tour.failed))]
    /\ Request.data
         (upload_request (upload_of (session (History.after Tour.failed))))
       = parsedData (session (History.after Tour.reported))
    /\ Request.fileName
         (upload_request (upload_of (session (History.after Tour.failed))))
       = fileName (session (History.after Tour.reported)).
Proof.
  apply (failed_upload_can_be_retried History.props
           (History.after Tour.reported) (History.after Tour.failed)
           0 History.network_down).
  - apply after_reachable. by_computation.
  - by_computation.
Defined.

Lemma upload_request_has_rows_and_file_name_witness :
  exists d n,
    uploads (History.after Tour.uploading)
    = [upload_of (session (History.after Tour.parsed))]
    /\ Request.data
         (upload_request (upload_of (session (History.after Tour.parsed))))
       = val d
    /\ d <> []
    /\ Request.fileName
         (upload_request (upload_of (session (History.after Tour.parsed))))
       = val n
    /\ state (session (History.after Tour.uploading)) = uploading.
Proof.
  apply (upload_request_has_rows_and_file_name History.props).
  - apply after_reachable. by_computation.
  - by_computation.
  - by_computation.
Defined.

Lemma upload_sends_what_was_parsed_witness :
  ParseResult.errors Example.one_row = []
  /\ ParseResult.data Example.one_row <> []
  /\ exists u,
       uploads (History.after Tour.uploading) = [u]
       /\ Request.data (upload_request u)
          = val (ParseResult.data Example.one_row)
       /\ Request.fileName (upload_request u)
          = val (ParseResult.fileName Example.one_row).
Proof.
  apply (upload_sends_what_was_parsed History.props
           (History.after History.picked) (History.after Tour.parsed)
           (History.after Tour.uploading) 0).
  - apply after_reachable. by_computation.
  - by_computation.
  - by_computation.
  - by_computation.
Defined.

Lemma rejected_parse_leaves_the_session_stuck_witness :
  session (History.after Tour.parse_failed)
  = session (History.after History.picked)
  /\ state (session (History.after Tour.parse_failed)) = parsing
  /\ escaped (History.after Tour.parse_failed)
     = escaped (History.after History.picked) ++ [val Tour.parse_error].
Proof.
  destruct (rejected_parse_leaves_the_session_stuck History.props
              (History.after History.picked)
              (History.after Tour.parse_failed) 0 (val Tour.parse_error))
    as (H1 & H2 & H3 & _).
  - apply after_reachable. by_computation.
  - by_computation.
  - repeat split; assumption.
Defined.

Lemma progress_label_is_0_or_100_witness :
  uploadProgress
    (session (History.after (Tour.uploading ++ [Progress 0 Tour.half])))
  = val (Int 1)
  /\ exists v,
       render History.props
         (session (History.after (Tour.uploading ++ [Progress 0 Tour.half])))
       = Some v
       /\ uploadingPercent v = Some (Int 100).
Proof.
  apply (progress_label_is_0_or_100 History.props
           (History.after Tour.uploading)
           (History.after (Tour.uploading ++ [Progress 0 Tour.half]))
           0 Tour.half).
  - apply after_reachable. by_computation.
  - by_computation.
  - by_computation.
  - reflexivity.
  - discriminate.
Defined.

Lemma progress_with_total_zero_witness :
  uploadProgress
    (session (History.after (Tour.uploading ++ [Progress 0 Tour.unknown_length])))
  = val PosInfinity
  /\ exists v,
       render History.props
         (session
            (History.after (Tour.uploading ++ [Progress 0 Tour.unknown_length])))
       = Some v
       /\ uploadingPercent v = Some PosInfinity.
Proof.
  apply (progress_with_total_zero History.props
           (History.after Tour.uploading)
           (History.after (Tour.uploading ++ [Progress 0 Tour.unknown_length]))
           0 Tour.unknown_length).
  - apply after_reachable. by_computation.
  - by_computation.
  - by_computation.
  - reflexivity.
Defined.

Lemma any_callback_sets_the_progress_witness :
  length (callbacks (History.after Tour.retried)) = 2
  /\ length (uploads (History.after Tour.retried)) = 1
  /\ step History.props (History.after Tour.retried) (Progress 0 Tour.half)
     = Some (with_session (History.after Tour.retried)
               (setState
                  [KuploadProgress
                     (val (Math_round_quotient (loaded Tour.half)
                             (total Tour.half)))]
                  (session (History.after Tour.retried)))).
Proof.
  split; [by_computation|]. split; [by_computation|].
  apply (any_callback_sets_the_progress History.props).
  - apply after_reachable. by_computation.
  - by_computation.
  - vm_compute. lia.
  - right. discriminate.
Defined.

(** ** Which parse a result belongs to *)





(** ** An upload rejected without an error object *)

Lemma uploading_without_upload_is_stuck
    (props : Props) (w w' : World) (ev : Event) :
  invariant w ->
  state (session w) = uploading ->
  uploads w = [] ->
  step props w ev = Some w' ->
  same_but_uploadProgress (session w) (session w')
  /\ uploads w' = []
  /\ escaped w' = escaped w.
Proof.
  intros Hinv Hst Hu Hstep.
  pose proof (step_transition props w w' ev Hinv Hstep) as Htr.
  destruct Htr as
    [acc rej Hst' Hg | acc rej Hst' Hg | Hst' | Hst' Hcan | Hst' Hcan
     | r Hst' Hlen | e Hst' Hlen | Hst' Hlen | e Hst' Hlen | e Hst' Hlen He
     | i pe Hi]; try congruence;
    try (rewrite Hu in Hlen; discriminate).
  - repeat split; assumption.
  - unfold with_session. cbn [session uploads escaped].
    destruct (onUploadProgress_frame pe (session w)) as [Hframe _].
    auto.
Qed.

Lemma uploading_without_upload_stays_stuck
    (props : Props) (evs : list Event) (w w' : World) :
  invariant w ->
  state (session w) = uploading ->
  uploads w = [] ->
  steps props w evs = Some w' ->
  same_but_uploadProgress (session w) (session w')
  /\ escaped w' = escaped w.
Proof.
  revert w. induction evs as [|ev evs IH]; intros w Hinv Hst Hu Hsteps;
    simpl in Hsteps.
  - injection Hsteps as <-. unfold same_but_uploadProgress. tauto.
  - destruct (step props w ev) as [w1|] eqn:Hstep; [|discriminate].
    destruct (uploading_without_upload_is_stuck props w w1 ev Hinv Hst Hu Hstep)
      as (Hframe & Hu1 & He1).
    destruct (IH w1 (invariant_step props w w1 ev Hinv Hstep)) as [Hframe' He'];
      [destruct Hframe as (H & _); congruence | exact Hu1 | exact Hsteps |].
    split; [|congruence].
    exact (same_but_uploadProgress_trans _ _ _ Hframe Hframe').
Qed.

(** C2, where [onUpload] rejects with [null] or [undefined] (a promise
    rejected without a value). The catch block of [onSave] reads
    [e.message], which throws: the TypeError leaves [onSave], the session
    is not put back to "parsed" and no [uploadError] is set. The session
    stays "uploading" with no upload in flight, where the Upload button is
    disabled and the delete action is not offered, and no later event
    brings it out of that state. *)
Theorem rejection_without_error_object_leaves_onSave
    (props : Props) (w w' : World) (i : nat) (e : Thrown) :
  reachable props w ->
  step props w (UploadSettles i (Rejected e)) = Some w' ->
  e = null \/ e = undefined ->
  session w' = session w
  /\ state (session w') = uploading
  /\ uploadError (session w') = null
  /\ uploads w' = []
  /\ escaped w'
     = escaped w ++ [TypeError "Cannot read properties of null or undefined"]
  /\ canSaveAndContinue props (session w') = false
  /\ (exists v,
        render props (session w') = Some v
        /\ uploadButton v = Some true
        /\ validationStatsPanel v = Some (validationStats (session w'), false)
        /\ filePicker v = false)
  /\ forall evs w'',
       steps props w' evs = Some w'' ->
       state (session w'') = uploading
       /\ uploadError (session w'') = null
       /\ parsedData (session w'') = parsedData (session w)
       /\ escaped w'' = escaped w'.
Proof.
  intros Hreach Hstep He.
  pose proof (reachable_invariant props w Hreach) as Hinv.
  pose proof (reachable_shape props w Hreach) as Hshape.
  pose proof (invariant_step props w w' _ Hinv Hstep) as Hinv'.
  pose proof (step_transition props w w' _ Hinv Hstep) as Htr.
  inversion Htr as [ | | | | | | | | e' Hst Hlen | e' Hst Hlen He' | ]; subst;
    [destruct He; discriminate|].
  destruct (shape_uploading props w Hshape Hst) as (Herrs & Hue & _).
  assert (Hcan : canSaveAndContinue props (session w) = false).
  { unfold canSaveAndContinue. rewrite Hst. cbn [Phase_eqb negb].
    rewrite andb_false_r. reflexivity. }
  cbn [session uploads escaped] in *.
  repeat (split; [first [reflexivity | assumption]|]).
  split.
  - destruct (render_messages props (session w) [] Herrs) as (v & Hv & _).
    exists v. split; [exact Hv|].
    destruct (render_widgets _ _ _ Hv) as (Hfp & Hpanel & Hb).
    rewrite Hst in Hfp, Hpanel, Hb. rewrite Hcan in Hb. auto.
  - intros evs w'' Hsteps.
    destruct (uploading_without_upload_stays_stuck props evs _ w'' Hinv' Hst
                eq_refl Hsteps) as [(F1 & _ & F3 & F4 & _) Hesc].
    cbn [session escaped] in *.
    repeat split; congruence.
Qed.

Lemma rejection_without_error_object_leaves_onSave_witness :
  session (History.after Again.rejected_without_value)
  = session (History.after Tour.uploading)
  /\ state (session (History.after Again.rejected_without_value)) = uploading
  /\ uploadError (session (History.after Again.rejected_without_value)) = null
  /\ uploads (History.after Again.rejected_without_value) = []
  /\ escaped (History.after Again.rejected_without_value)
     = escaped (History.after Tour.uploading)
       ++ [TypeError "Cannot read properties of null or undefined"]
  /\ canSaveAndContinue History.props
       (session (History.after Again.rejected_without_value)) = false.
Proof.
  destruct (rejection_without_error_object_leaves_onSave History.props
              (History.after Tour.uploading)
              (History.after Again.rejected_without_value) 0 undefined)
    as (H1 & H2 & H3 & H4 & H5 & H6 & _).
  - apply after_reachable. by_computation.
  - by_computation.
  - right. reflexivity.
  - repeat (apply conj; [assumption|]). assumption.
Defined.
